(** * Razor external scanner: a shallow embedding of [src/scanner.c]

    The scanner wraps the C# external scanner and adds the Razor token
    families: literal-at text, markup text, the mode-transition tokens that
    push and pop the context stack, the mode-gated comment and preprocessor
    tokens, and the four raw-content scanners.  Code points, bytes and token
    kinds are [Z]; the context stack is the [Array(uint8_t)] of the source,
    a [list Z] whose last element is the top.  The C# scanner, the host's
    lexer and the capacity of the serialization buffer are not part of the
    sources: the first is an interface, the second is modelled after the
    host's contract, the third is a parameter. *)

From Stdlib Require Import Ascii String ZArith List Bool Lia.
Import ListNotations.
Open Scope Z_scope.

(** ** Characters *)

Definition ch (a : ascii) : Z := Z.of_N (N_of_ascii a).

Definition str (s : string) : list Z := map ch (list_ascii_of_string s).

Definition LF : Z := 10.
Definition CR : Z := 13.
Definition TAB : Z := 9.
Definition SPACE : Z := 32.
Definition DQUOTE : Z := 34.

(** ** The host's lexer *)

Module Lexer.

(** Modelled from the spec: the lexer cursor is owned by the host
    ([tree_sitter/parser.h] is not part of the sources).  It exposes the
    lookahead code point (0 at end of input), [advance] with its skip flag,
    [mark_end], [eof] and the [result_symbol] slot.  [token_start] moves
    with every skipped character; [token_end] is the last marked end, and
    when no end was marked the host takes the current position. *)
Record TSLexer : Type := mkLexer {
  input : list Z;
  position : nat;
  token_start : nat;
  token_end : option nat;
  result_symbol : Z
}.

Definition start (text : list Z) : TSLexer :=
  {| input := text; position := 0; token_start := 0;
     token_end := None; result_symbol := 0 |}.

Definition eof (lx : TSLexer) : bool :=
  (length (input lx) <=? position lx)%nat.

Definition lookahead (lx : TSLexer) : Z :=
  nth (position lx) (input lx) 0.

Definition advance (lx : TSLexer) (skip : bool) : TSLexer :=
  if eof lx then lx
  else {| input := input lx;
          position := S (position lx);
          token_start := if skip then S (position lx) else token_start lx;
          token_end := token_end lx;
          result_symbol := result_symbol lx |}.

Definition mark_end (lx : TSLexer) : TSLexer :=
  {| input := input lx; position := position lx;
     token_start := token_start lx;
     token_end := Some (position lx);
     result_symbol := result_symbol lx |}.

Definition set_result_symbol (lx : TSLexer) (sym : Z) : TSLexer :=
  {| input := input lx; position := position lx;
     token_start := token_start lx;
     token_end := token_end lx;
     result_symbol := sym |}.

(** Where the host ends the token once the scan has returned. *)
Definition end_position (lx : TSLexer) : nat :=
  match token_end lx with
  | Some e => e
  | None => position lx
  end.

(** The characters of the committed token. *)
Definition token_text (lx : TSLexer) : list Z :=
  firstn (end_position lx - token_start lx) (skipn (token_start lx) (input lx)).

(** What is left of the input at the cursor. *)
Definition remaining (lx : TSLexer) : nat :=
  (length (input lx) - position lx)%nat.

End Lexer.
Import Lexer.

(** The C library's [iswspace], as it is in the "C" locale: the space and
    the controls from tab to carriage return. *)
Definition iswspace (c : Z) : bool :=
  (c =? 32) || ((9 <=? c) && (c <=? 13)).

(** ** Token kinds *)

Definition CSHARP_TOKEN_COUNT : Z := 12.

Definition TEXT_WITH_LITERAL_AT : Z := CSHARP_TOKEN_COUNT.
Definition HTML_TEXT_CONTENT : Z := 13.
Definition CSHARP_CODE_BLOCK_START : Z := 14.
Definition CSHARP_EXPLICIT_EXPR_START : Z := 15.
Definition RAZOR_BLOCK_OPEN : Z := 16.
Definition CSHARP_CONTEXT_CLOSE : Z := 17.
Definition CSHARP_COMMENT : Z := 18.
Definition CSHARP_PREPROC : Z := 19.
Definition SCRIPT_CONTENT : Z := 20.
Definition STYLE_CONTENT : Z := 21.
Definition TITLE_CONTENT : Z := 22.
Definition TEXTAREA_CONTENT : Z := 23.

(** ** Context tags *)

Definition CONTEXT_HTML : Z := 0.
Definition CONTEXT_CSHARP_BRACE : Z := 1.
Definition CONTEXT_CSHARP_PAREN : Z := 2.

(** ** The embedded C# scanner

    The C# scanner is included from another repository and used as a black
    box: a state and the four operations the Razor scanner calls.  A
    serialized state is the list of the bytes written, its length the value
    the C function returns. *)
Class CSharpScanner : Type := {
  cs_state : Type;
  tree_sitter_c_sharp_external_scanner_create : cs_state;
  tree_sitter_c_sharp_external_scanner_serialize : cs_state -> list Z;
  tree_sitter_c_sharp_external_scanner_deserialize :
    cs_state -> list Z -> Z -> cs_state;
  tree_sitter_c_sharp_external_scanner_scan :
    cs_state -> TSLexer -> (Z -> bool) -> bool * cs_state * TSLexer
}.

(** ** Helper functions *)

Definition razor_advance (lx : TSLexer) : TSLexer := advance lx false.

Definition razor_skip (lx : TSLexer) : TSLexer := advance lx true.

Definition in_range (lo hi c : Z) : bool := (lo <=? c) && (c <=? hi).

Definition is_unicode_letter (c : Z) : bool :=
  if in_range (ch "A") (ch "Z") c || in_range (ch "a") (ch "z") c then true
  else if in_range 0x00C0 0x00FF c && negb (c =? 0x00D7) && negb (c =? 0x00F7) then true
  else if in_range 0x0100 0x017F c then true
  else if in_range 0x0180 0x024F c then true
  else if in_range 0x0370 0x03FF c then true
  else if in_range 0x0400 0x04FF c then true
  else if in_range 0x0590 0x05FF c then true
  else if in_range 0x0600 0x06FF c then true
  else if in_range 0x0900 0x097F c then true
  else if in_range 0x0E00 0x0E7F c then true
  else if in_range 0x4E00 0x9FFF c then true
  else if in_range 0x3040 0x309F c then true
  else if in_range 0x30A0 0x30FF c then true
  else if in_range 0xAC00 0xD7AF c then true
  else false.

Definition is_unicode_digit (c : Z) : bool :=
  if in_range (ch "0") (ch "9") c then true else false.

Definition is_email_char (c : Z) : bool :=
  is_unicode_letter c || is_unicode_digit c.

Definition is_identifier_char (c : Z) : bool :=
  is_unicode_letter c || is_unicode_digit c || (c =? ch "_").

(** ** Loops

    A [while] loop of the source is its body iterated: the body either goes
    round again or leaves the loop.  Every loop of the scanner moves the
    cursor forward each time it goes round, so it is run with one more unit
    of fuel than there are characters left; [None] stands for fuel running
    out, which the totality lemmas below show never happens. *)

Inductive iter (St : Type) : Type :=
| Continue (s : St)
| Break (s : St).
Arguments Continue {St} s.
Arguments Break {St} s.

Fixpoint loop {St : Type} (fuel : nat) (body : St -> option (iter St)) (s : St)
  : option St :=
  match fuel with
  | O => None
  | S fuel' =>
      match body s with
      | None => None
      | Some (Break s') => Some s'
      | Some (Continue s') => loop fuel' body s'
      end
  end.

Definition fuel_for (lx : TSLexer) : nat := S (remaining lx).

(** [while (iswspace(lexer->lookahead)) razor_skip(lexer);] *)
Definition skip_whitespace_body (lx : TSLexer) : option (iter TSLexer) :=
  if iswspace (lookahead lx) then Some (Continue (razor_skip lx))
  else Some (Break lx).

Definition skip_whitespace (lx : TSLexer) : option TSLexer :=
  loop (fuel_for lx) skip_whitespace_body lx.

(** [while (!eof && lookahead != '\n' && lookahead != '\r') razor_advance(lexer);] *)
Definition rest_of_line_body (lx : TSLexer) : option (iter TSLexer) :=
  if negb (eof lx) && negb (lookahead lx =? LF) && negb (lookahead lx =? CR)
  then Some (Continue (razor_advance lx))
  else Some (Break lx).

Definition rest_of_line (lx : TSLexer) : option TSLexer :=
  loop (fuel_for lx) rest_of_line_body lx.

(** ** C strings: [char] casts and [strcmp] *)

Definition to_char (c : Z) : Z := c mod 256.

Fixpoint c_string (buf : list Z) : list Z :=
  match buf with
  | [] => []
  | c :: buf' => if c =? 0 then [] else c :: c_string buf'
  end.

(** [strcmp(a, b) == 0] *)
Definition strcmp_eq (a b : list Z) : bool :=
  if list_eq_dec Z.eq_dec (c_string a) (c_string b) then true else false.

(** ** The scanner *)

Section Scanner.

Context {CS : CSharpScanner}.

Record RazorScanner : Type := mkScanner {
  csharp_scanner : cs_state;
  context_stack : list Z
}.

Definition in_csharp_context (scanner : RazorScanner) : bool :=
  (0 <? Z.of_nat (length (context_stack scanner))).

Definition array_push (scanner : RazorScanner) (tag : Z) : RazorScanner :=
  {| csharp_scanner := csharp_scanner scanner;
     context_stack := context_stack scanner ++ [tag] |}.

Definition array_pop (scanner : RazorScanner) : RazorScanner :=
  {| csharp_scanner := csharp_scanner scanner;
     context_stack := removelast (context_stack scanner) |}.

Definition tree_sitter_razor_external_scanner_create : RazorScanner :=
  {| csharp_scanner := tree_sitter_c_sharp_external_scanner_create;
     context_stack := [] |}.

(** What a call to scan gives back: the C return value, the scanner and
    the lexer as the call leaves them. *)
Record outcome : Type := mkOutcome {
  returned : bool;
  scanner_after : RazorScanner;
  lexer_after : TSLexer
}.

(** A token family either returns from the scan or lets the control fall
    through to the next family, with the lexer where it left it. *)
Inductive flow : Type :=
| Return (r : outcome)
| Next (lx : TSLexer).

(** [lexer->result_symbol = sym; return true;] *)
Definition committed (scanner : RazorScanner) (lx : TSLexer) (sym : Z) : outcome :=
  {| returned := true; scanner_after := scanner;
     lexer_after := set_result_symbol lx sym |}.

(** [return false;] *)
Definition declined (scanner : RazorScanner) (lx : TSLexer) : outcome :=
  {| returned := false; scanner_after := scanner; lexer_after := lx |}.

Definition commit (scanner : RazorScanner) (lx : TSLexer) (sym : Z) : flow :=
  Return (committed scanner lx sym).

Definition decline (scanner : RazorScanner) (lx : TSLexer) : flow :=
  Return (declined scanner lx).

(** *** TEXT_WITH_LITERAL_AT *)

Definition email_tail_body (lx : TSLexer) : option (iter TSLexer) :=
  if is_email_char (lookahead lx) || (lookahead lx =? ch ".")
     || (lookahead lx =? ch "-")
  then Some (Continue (razor_advance lx))
  else Some (Break lx).

Definition email_tail (lx : TSLexer) : option TSLexer :=
  loop (fuel_for lx) email_tail_body lx.

Record at_state : Type := mkAt {
  at_lexer : TSLexer;
  found_literal_at : bool;
  last_was_word : bool
}.

Definition literal_at_body (s : at_state) : option (iter at_state) :=
  let lx := at_lexer s in
  if negb (eof lx) && negb (lookahead lx =? ch "<")
     && negb (lookahead lx =? DQUOTE) && negb (lookahead lx =? ch "'")
  then
    if lookahead lx =? ch "@" then
      if last_was_word s then
        let lx1 := razor_advance lx in
        if is_email_char (lookahead lx1) then
          match email_tail lx1 with
          | None => None
          | Some lx2 =>
              Some (Continue {| at_lexer := mark_end lx2;
                                found_literal_at := true;
                                last_was_word := false |})
          end
        else
          Some (Break {| at_lexer := lx1;
                         found_literal_at := found_literal_at s;
                         last_was_word := last_was_word s |})
      else Some (Break s)
    else
      let word := is_email_char (lookahead lx) in
      let lx1 := razor_advance lx in
      Some (Continue {| at_lexer := if found_literal_at s then mark_end lx1 else lx1;
                        found_literal_at := found_literal_at s;
                        last_was_word := word |})
  else Some (Break s).

Definition text_with_literal_at (valid_symbols : Z -> bool)
    (scanner : RazorScanner) (lx : TSLexer) : option flow :=
  if valid_symbols TEXT_WITH_LITERAL_AT && negb (in_csharp_context scanner) then
    match loop (fuel_for lx) literal_at_body
               {| at_lexer := lx; found_literal_at := false;
                  last_was_word := false |} with
    | None => None
    | Some s =>
        if found_literal_at s
        then Some (commit scanner (at_lexer s) TEXT_WITH_LITERAL_AT)
        else Some (Next (at_lexer s))
    end
  else Some (Next lx).

(** *** HTML_TEXT_CONTENT *)

Record keyword_state : Type := mkKeyword {
  kw_lexer : TSLexer;
  keyword_buf : list Z;
  keyword_len : Z
}.

(** [while (keyword_len < 7 && is_identifier_char(lexer->lookahead))] *)
Definition keyword_peek_body (s : keyword_state) : option (iter keyword_state) :=
  if (keyword_len s <? 7) && is_identifier_char (lookahead (kw_lexer s)) then
    Some (Continue {| kw_lexer := razor_advance (kw_lexer s);
                      keyword_buf := keyword_buf s ++ [to_char (lookahead (kw_lexer s))];
                      keyword_len := keyword_len s + 1 |})
  else Some (Break s).

Definition keyword_peek (lx : TSLexer) : option keyword_state :=
  loop (fuel_for lx) keyword_peek_body
       {| kw_lexer := lx; keyword_buf := []; keyword_len := 0 |}.

Definition is_keyword (start_char : Z) (s : keyword_state) : bool :=
  if negb (is_identifier_char (lookahead (kw_lexer s))) then
    if (start_char =? ch "e") && strcmp_eq (keyword_buf s) (str "else") then true
    else if (start_char =? ch "c") && strcmp_eq (keyword_buf s) (str "catch") then true
    else if (start_char =? ch "f") && strcmp_eq (keyword_buf s) (str "finally") then true
    else false
  else false.

Record html_state : Type := mkHtml {
  html_lexer : TSLexer;
  has_content : bool;
  found_keyword : bool;
  at_line_start : bool
}.

Definition html_text_body (s : html_state) : option (iter html_state) :=
  let lx := html_lexer s in
  let c := lookahead lx in
  if eof lx then Some (Break s)
  else if (c =? ch "<") || (c =? ch "@") then Some (Break s)
  else if (c =? ch ".") || (c =? ch "[") || (c =? ch "(") then Some (Break s)
  else if (c =? DQUOTE) || (c =? ch "'") then Some (Break s)
  else if (c =? LF) || (c =? CR) then
    Some (Continue {| html_lexer := mark_end (razor_advance lx);
                      has_content := true;
                      found_keyword := found_keyword s;
                      at_line_start := true |})
  else if at_line_start s && ((c =? SPACE) || (c =? TAB)) then
    Some (Continue {| html_lexer := mark_end (razor_advance lx);
                      has_content := true;
                      found_keyword := found_keyword s;
                      at_line_start := at_line_start s |})
  else if at_line_start s && ((c =? ch "e") || (c =? ch "c") || (c =? ch "f")) then
    match keyword_peek (mark_end lx) with
    | None => None
    | Some k =>
        if is_keyword c k then
          Some (Break {| html_lexer := kw_lexer k;
                         has_content := has_content s;
                         found_keyword := true;
                         at_line_start := at_line_start s |})
        else
          Some (Continue {| html_lexer := mark_end (kw_lexer k);
                            has_content := true;
                            found_keyword := found_keyword s;
                            at_line_start := false |})
    end
  else
    Some (Continue {| html_lexer := mark_end (razor_advance lx);
                      has_content := true;
                      found_keyword := found_keyword s;
                      at_line_start := false |}).

Definition html_text_content (valid_symbols : Z -> bool)
    (scanner : RazorScanner) (lx : TSLexer) : option flow :=
  if valid_symbols HTML_TEXT_CONTENT && negb (in_csharp_context scanner) then
    match loop (fuel_for lx) html_text_body
               {| html_lexer := lx; has_content := false;
                  found_keyword := false; at_line_start := true |} with
    | None => None
    | Some s =>
        if has_content s
        then Some (commit scanner (html_lexer s) HTML_TEXT_CONTENT)
        else if found_keyword s
        then Some (decline scanner (html_lexer s))
        else Some (Next (html_lexer s))
    end
  else Some (Next lx).

(** *** Mode-transition tokens *)

Definition csharp_start (valid_symbols : Z -> bool)
    (scanner : RazorScanner) (lx : TSLexer) : option flow :=
  if (valid_symbols CSHARP_CODE_BLOCK_START
      || valid_symbols CSHARP_EXPLICIT_EXPR_START)
     && (lookahead lx =? ch "@") then
    let lx1 := razor_advance lx in
    if valid_symbols CSHARP_CODE_BLOCK_START && (lookahead lx1 =? ch "{") then
      Some (commit (array_push scanner CONTEXT_CSHARP_BRACE)
                   (razor_advance lx1) CSHARP_CODE_BLOCK_START)
    else if valid_symbols CSHARP_EXPLICIT_EXPR_START && (lookahead lx1 =? ch "(") then
      Some (commit (array_push scanner CONTEXT_CSHARP_PAREN)
                   (razor_advance lx1) CSHARP_EXPLICIT_EXPR_START)
    else Some (decline scanner lx1)
  else Some (Next lx).

Definition razor_block_open (valid_symbols : Z -> bool)
    (scanner : RazorScanner) (lx : TSLexer) : option flow :=
  if valid_symbols RAZOR_BLOCK_OPEN then
    match skip_whitespace lx with
    | None => None
    | Some lx1 =>
        if lookahead lx1 =? ch "{" then
          Some (commit (array_push scanner CONTEXT_CSHARP_BRACE)
                       (razor_advance lx1) RAZOR_BLOCK_OPEN)
        else Some (Next lx1)
    end
  else Some (Next lx).

Definition csharp_context_close (valid_symbols : Z -> bool)
    (scanner : RazorScanner) (lx : TSLexer) : option flow :=
  if valid_symbols CSHARP_CONTEXT_CLOSE
     && (0 <? Z.of_nat (length (context_stack scanner))) then
    match skip_whitespace lx with
    | None => None
    | Some lx1 =>
        let top := last (context_stack scanner) 0 in
        if ((top =? CONTEXT_CSHARP_BRACE) && (lookahead lx1 =? ch "}"))
           || ((top =? CONTEXT_CSHARP_PAREN) && (lookahead lx1 =? ch ")")) then
          Some (commit (array_pop scanner) (razor_advance lx1)
                       CSHARP_CONTEXT_CLOSE)
        else Some (Next lx1)
    end
  else Some (Next lx).

(** *** Mode-gated C# extras *)

Definition block_comment_body (lx : TSLexer) : option (iter TSLexer) :=
  if eof lx then Some (Break lx)
  else if lookahead lx =? ch "*" then
    let lx1 := razor_advance lx in
    if lookahead lx1 =? ch "/" then Some (Break (razor_advance lx1))
    else Some (Continue lx1)
  else Some (Continue (razor_advance lx)).

Definition block_comment (lx : TSLexer) : option TSLexer :=
  loop (fuel_for lx) block_comment_body lx.

Definition csharp_comment (valid_symbols : Z -> bool)
    (scanner : RazorScanner) (lx : TSLexer) : option flow :=
  if valid_symbols CSHARP_COMMENT && in_csharp_context scanner then
    if lookahead lx =? ch "/" then
      let lx1 := razor_advance lx in
      if lookahead lx1 =? ch "/" then
        match rest_of_line (razor_advance lx1) with
        | None => None
        | Some lx2 => Some (commit scanner lx2 CSHARP_COMMENT)
        end
      else if lookahead lx1 =? ch "*" then
        match block_comment (razor_advance lx1) with
        | None => None
        | Some lx2 => Some (commit scanner lx2 CSHARP_COMMENT)
        end
      else Some (decline scanner lx1)
    else Some (Next lx)
  else Some (Next lx).

Definition csharp_preproc (valid_symbols : Z -> bool)
    (scanner : RazorScanner) (lx : TSLexer) : option flow :=
  if valid_symbols CSHARP_PREPROC && in_csharp_context scanner
     && (lookahead lx =? ch "#") then
    match rest_of_line (razor_advance lx) with
    | None => None
    | Some lx1 =>
        let lx2 := if negb (eof lx1) && (lookahead lx1 =? CR)
                   then razor_advance lx1 else lx1 in
        let lx3 := if negb (eof lx2) && (lookahead lx2 =? LF)
                   then razor_advance lx2 else lx2 in
        Some (commit scanner lx3 CSHARP_PREPROC)
    end
  else Some (Next lx).

(** *** Raw content: script, style, title, textarea

    The source has the same code four times over; the copies differ in the
    tag name, its length, the token kind and the two letters of the first
    check. *)

(** [while (tag[i] && matches)], on what is left of [tag] from index [i]. *)
Fixpoint match_tag (tag : list Z) (i : Z) (lx : TSLexer) : bool * Z * TSLexer :=
  match tag with
  | [] => (true, i, lx)
  | t :: tag' =>
      let c := lookahead lx in
      if negb (c =? t) && negb (c =? t - 32) then (false, i, lx)
      else match_tag tag' (i + 1) (razor_advance lx)
  end.

Record raw_state : Type := mkRaw {
  raw_lexer : TSLexer;
  raw_has_content : bool
}.

Definition raw_content_body (tag : list Z) (len : Z) (s : raw_state)
  : option (iter raw_state) :=
  let lx := raw_lexer s in
  if eof lx then Some (Break s)
  else if lookahead lx =? ch "<" then
    let lx1 := razor_advance (mark_end lx) in
    if lookahead lx1 =? ch "/" then
      let '(matches, i, lx2) := match_tag tag 0 (razor_advance lx1) in
      if matches && (i =? len) then
        Some (Break {| raw_lexer := lx2; raw_has_content := raw_has_content s |})
      else
        Some (Continue {| raw_lexer := mark_end lx2; raw_has_content := true |})
    else
      Some (Continue {| raw_lexer := mark_end lx1; raw_has_content := true |})
  else
    Some (Continue {| raw_lexer := mark_end (razor_advance lx);
                      raw_has_content := true |}).

Definition raw_content (sym : Z) (tag : list Z) (len : Z) (lower upper : Z)
    (valid_symbols : Z -> bool) (scanner : RazorScanner) (lx : TSLexer)
  : option flow :=
  if valid_symbols sym then
    if lookahead lx =? ch "<" then
      let lx1 := razor_advance (mark_end lx) in
      if lookahead lx1 =? ch "/" then
        let lx2 := razor_advance lx1 in
        let c := lookahead lx2 in
        if (c =? lower) || (c =? upper) then Some (decline scanner lx2)
        else Some (decline scanner lx2)
      else Some (decline scanner lx1)
    else
      match loop (fuel_for lx) (raw_content_body tag len)
                 {| raw_lexer := lx; raw_has_content := false |} with
      | None => None
      | Some s =>
          if raw_has_content s
          then Some (commit scanner (raw_lexer s) sym)
          else Some (decline scanner (raw_lexer s))
      end
  else Some (Next lx).

Definition script_content :=
  raw_content SCRIPT_CONTENT (str "script") 6 (ch "s") (ch "S").
Definition style_content :=
  raw_content STYLE_CONTENT (str "style") 5 (ch "s") (ch "S").
Definition title_content :=
  raw_content TITLE_CONTENT (str "title") 5 (ch "t") (ch "T").
Definition textarea_content :=
  raw_content TEXTAREA_CONTENT (str "textarea") 8 (ch "t") (ch "T").

(** *** The dispatcher *)

Definition family : Type := (Z -> bool) -> RazorScanner -> TSLexer -> option flow.

(** Run the families in order; the first one that returns ends the scan. *)
Fixpoint run_families (fs : list family) (valid_symbols : Z -> bool)
    (scanner : RazorScanner) (lx : TSLexer) : option flow :=
  match fs with
  | [] => Some (Next lx)
  | f :: fs' =>
      match f valid_symbols scanner lx with
      | None => None
      | Some (Return r) => Some (Return r)
      | Some (Next lx') => run_families fs' valid_symbols scanner lx'
      end
  end.

Definition razor_families : list family :=
  [ text_with_literal_at; html_text_content; csharp_start; razor_block_open;
    csharp_context_close; csharp_comment; csharp_preproc;
    script_content; style_content; title_content; textarea_content ].

(** Everything of [tree_sitter_razor_external_scanner_scan] above its last
    line: [Next] is the control reaching the delegation. *)
Definition razor_scan := run_families razor_families.

(** [return tree_sitter_c_sharp_external_scanner_scan(...)] *)
Definition delegate (valid_symbols : Z -> bool) (scanner : RazorScanner)
    (lx : TSLexer) : outcome :=
  let '(b, cs', lx') :=
    tree_sitter_c_sharp_external_scanner_scan (csharp_scanner scanner) lx
                                              valid_symbols in
  {| returned := b;
     scanner_after := {| csharp_scanner := cs';
                         context_stack := context_stack scanner |};
     lexer_after := lx' |}.

Definition tree_sitter_razor_external_scanner_scan (scanner : RazorScanner)
    (lx : TSLexer) (valid_symbols : Z -> bool) : option outcome :=
  match razor_scan valid_symbols scanner lx with
  | None => None
  | Some (Return r) => Some r
  | Some (Next lx') => Some (delegate valid_symbols scanner lx')
  end.

End Scanner.

(** ** Serialization *)

(** [unsigned] arithmetic wraps at 32 bits. *)
Definition u32 (x : Z) : Z := x mod 2 ^ 32.

(** [(unsigned char)buffer[i]]; a read past the bytes held gives 0 here,
    where the C code reads whatever the host's buffer holds. *)
Definition buffer_at (buffer : list Z) (i : Z) : Z :=
  to_char (nth (Z.to_nat i) buffer 0).

Section Serializer.

Context {CS : CSharpScanner}.

(** The capacity of the host's serialization buffer, a constant of
    [tree_sitter/parser.h]. *)
Variable TREE_SITTER_SERIALIZATION_BUFFER_SIZE : Z.

(** The bytes written to the buffer and the length returned. *)
Definition tree_sitter_razor_external_scanner_serialize
    (scanner : RazorScanner) : list Z * Z :=
  let blob := tree_sitter_c_sharp_external_scanner_serialize
                (csharp_scanner scanner) in
  let csharp_size := u32 (Z.of_nat (length blob)) in
  let stack_size := u32 (Z.of_nat (length (context_stack scanner))) in
  let razor_size := u32 (1 + stack_size) in
  if u32 (csharp_size + razor_size) >? TREE_SITTER_SERIALIZATION_BUFFER_SIZE
  then (blob, 0)
  else (blob ++ to_char stack_size :: map to_char (context_stack scanner),
        u32 (csharp_size + 1 + stack_size)).

(** [array_extend(&stack, count, &buffer[from])] *)
Definition array_extend (stack : list Z) (count : Z) (buffer : list Z)
    (from : Z) : list Z :=
  stack ++ map (fun k => buffer_at buffer (from + Z.of_nat k))
               (seq 0 (Z.to_nat count)).

Definition tree_sitter_razor_external_scanner_deserialize
    (scanner : RazorScanner) (buffer : list Z) (length : Z) : RazorScanner :=
  if length =? 0 then
    {| csharp_scanner :=
         tree_sitter_c_sharp_external_scanner_deserialize
           (csharp_scanner scanner) buffer 0;
       context_stack := [] |}
  else
    let interp_count := buffer_at buffer 1 in
    let csharp_size := 2 + interp_count * 4 in
    let cs' := tree_sitter_c_sharp_external_scanner_deserialize
                 (csharp_scanner scanner) buffer csharp_size in
    if length >? csharp_size then
      let context_count := buffer_at buffer csharp_size in
      {| csharp_scanner := cs';
         context_stack := array_extend [] context_count buffer (csharp_size + 1) |}
    else
      {| csharp_scanner := cs'; context_stack := [] |}.

(** Serialize, then hand the buffer and the length back to deserialize. *)
Definition round_trip (into scanner : RazorScanner) : RazorScanner :=
  let '(buffer, length) := tree_sitter_razor_external_scanner_serialize scanner in
  tree_sitter_razor_external_scanner_deserialize into buffer length.

End Serializer.

(** ** Two sub-scanners to run the scanner with *)

Module SpecCSharp.

(** One entry of the interpolation stack, four bytes when persisted. *)
Record interpolation : Type := mkInterpolation {
  byte0 : Z; byte1 : Z; byte2 : Z; byte3 : Z
}.

(** Modelled from the spec: the state of the embedded sub-scanner, the C#
    scanner the source includes from outside this repository, as far as its
    persisted form shows it: a quote depth and a stack of interpolations. *)
Record state : Type := mkState {
  quote_count : Z;
  interpolation_stack : list interpolation
}.

Definition interpolation_bytes (i : interpolation) : list Z :=
  [to_char (byte0 i); to_char (byte1 i); to_char (byte2 i); to_char (byte3 i)].

(** Modelled from the spec: the sub-scanner's serialize writes one byte of
    quote depth, one byte [N] of interpolation depth and four bytes for
    each of the [N] interpolations, [2 + 4 * N] bytes in all. *)
Definition serialize (s : state) : list Z :=
  to_char (quote_count s)
    :: to_char (Z.of_nat (length (interpolation_stack s)))
    :: flat_map interpolation_bytes (interpolation_stack s).

Definition read_interpolation (buffer : list Z) (k : nat) : interpolation :=
  let at_ j := buffer_at buffer (2 + 4 * Z.of_nat k + j) in
  {| byte0 := at_ 0; byte1 := at_ 1; byte2 := at_ 2; byte3 := at_ 3 |}.

(** Modelled from the spec: the sub-scanner's deserialize reads that layout
    back; an empty buffer resets the state. *)
Definition deserialize (_ : state) (buffer : list Z) (length : Z) : state :=
  if length =? 0 then {| quote_count := 0; interpolation_stack := [] |}
  else {| quote_count := buffer_at buffer 0;
          interpolation_stack :=
            map (read_interpolation buffer)
                (seq 0 (Z.to_nat (buffer_at buffer 1))) |}.

(** Modelled from the spec: the embedded sub-scanner with the persisted
    layout above.  Nothing is said of its scan routine; this one declines
    and leaves the lexer alone. *)
#[export] Instance scanner : CSharpScanner := {|
  cs_state := state;
  tree_sitter_c_sharp_external_scanner_create :=
    {| quote_count := 0; interpolation_stack := [] |};
  tree_sitter_c_sharp_external_scanner_serialize := serialize;
  tree_sitter_c_sharp_external_scanner_deserialize := deserialize;
  tree_sitter_c_sharp_external_scanner_scan := fun s lx _ => (false, s, lx)
|}.

(** The Razor scanner over it, with the given sub-scanner state and
    context stack. *)
Definition razor (cs : state) (stack : list Z) : @RazorScanner scanner :=
  @mkScanner scanner cs stack.

End SpecCSharp.

Module Probe.

(** A sub-scanner that makes a delegation visible: its state counts the
    calls to its scan routine, which always commits its kind 0 over one
    character. *)
#[export] Instance scanner : CSharpScanner := {|
  cs_state := nat;
  tree_sitter_c_sharp_external_scanner_create := O;
  tree_sitter_c_sharp_external_scanner_serialize := fun _ => [0; 0];
  tree_sitter_c_sharp_external_scanner_deserialize := fun n _ _ => n;
  tree_sitter_c_sharp_external_scanner_scan :=
    fun n lx _ => (true, S n, set_result_symbol (razor_advance lx) 0)
|}.

(** The Razor scanner over it, with the given context stack. *)
Definition razor (stack : list Z) : @RazorScanner scanner :=
  {| csharp_scanner := O; context_stack := stack |}.

End Probe.

(** The admissible-symbols table in which exactly the kinds of [ks] are
    valid. *)
Definition only (ks : list Z) : Z -> bool :=
  fun k => existsb (Z.eqb k) ks.

(** ** Vocabulary of the statements *)

(** The input from the cursor on. *)
Definition rest_of_input (lx : TSLexer) : list Z :=
  skipn (position lx) (input lx).

(** [lx'] is [lx] moved forward over the same input. *)
Definition advanced (lx lx' : TSLexer) : Prop :=
  input lx' = input lx /\ (position lx <= position lx')%nat.

(** The first character at or after the cursor that is not whitespace
    (0 when there is none). *)
Fixpoint first_non_whitespace (l : list Z) : Z :=
  match l with
  | [] => 0
  | c :: l' => if iswspace c then first_non_whitespace l' else c
  end.

Definition next_non_whitespace (lx : TSLexer) : Z :=
  first_non_whitespace (rest_of_input lx).

(** The sub-scanner commits kinds of its own catalogue only, the ones below
    [CSHARP_TOKEN_COUNT]. *)
Definition own_kinds (CS : CSharpScanner) : Prop :=
  forall cs lx valid_symbols b cs' lx',
    tree_sitter_c_sharp_external_scanner_scan cs lx valid_symbols = (b, cs', lx') ->
    b = true -> 0 <= result_symbol lx' < CSHARP_TOKEN_COUNT.

(** [variant] is [tag] with each letter in either case, the way the source
    folds case: the letter itself or the letter minus 32. *)
Definition case_variant (tag variant : list Z) : Prop :=
  Forall2 (fun t c => c = t \/ c = t - 32) tag variant.

(** The raw-content kinds with their tag names, in dispatch order. *)
Definition raw_kinds : list (Z * list Z) :=
  [ (SCRIPT_CONTENT, str "script"); (STYLE_CONTENT, str "style");
    (TITLE_CONTENT, str "title"); (TEXTAREA_CONTENT, str "textarea") ].

(** The closer [c] closes a region opened with [tag]. *)
Definition closes (tag c : Z) : Prop :=
  (tag = CONTEXT_CSHARP_BRACE /\ c = ch "}")
  \/ (tag = CONTEXT_CSHARP_PAREN /\ c = ch ")").

(** The places where a family of the scanner returns false itself, by the
    admissible kinds that lead there: the markup text refusing an empty
    match before a keyword, an [@] followed by neither [{] nor [(], a lone
    [/] where a comment is attempted, and the raw-content scanners, which
    never fall through. *)
Definition decline_point {CS : CSharpScanner} (valid_symbols : Z -> bool)
    (scanner : RazorScanner) : Prop :=
  (valid_symbols HTML_TEXT_CONTENT = true /\ context_stack scanner = [])
  \/ (valid_symbols CSHARP_CODE_BLOCK_START = true
      \/ valid_symbols CSHARP_EXPLICIT_EXPR_START = true)
  \/ (valid_symbols CSHARP_COMMENT = true /\ context_stack scanner <> [])
  \/ (exists sym, In sym (map fst raw_kinds) /\ valid_symbols sym = true).

(** What a return of one of the scanner's own families looks like: a
    decline, a commit that leaves the context stack alone, or one of the
    mode transitions. *)
Inductive own_return {CS : CSharpScanner} (valid_symbols : Z -> bool)
    (scanner : RazorScanner) : outcome -> Prop :=
| Own_decline lx :
    decline_point valid_symbols scanner ->
    own_return valid_symbols scanner (declined scanner lx)
| Own_text lx sym :
    sym = TEXT_WITH_LITERAL_AT \/ sym = HTML_TEXT_CONTENT ->
    valid_symbols sym = true ->
    context_stack scanner = [] ->
    own_return valid_symbols scanner (committed scanner lx sym)
| Own_extra lx sym :
    sym = CSHARP_COMMENT \/ sym = CSHARP_PREPROC ->
    valid_symbols sym = true ->
    context_stack scanner <> [] ->
    own_return valid_symbols scanner (committed scanner lx sym)
| Own_raw lx sym :
    In sym (map fst raw_kinds) ->
    valid_symbols sym = true ->
    own_return valid_symbols scanner (committed scanner lx sym)
| Own_open_brace lx sym :
    sym = CSHARP_CODE_BLOCK_START \/ sym = RAZOR_BLOCK_OPEN ->
    valid_symbols sym = true ->
    own_return valid_symbols scanner
      (committed (array_push scanner CONTEXT_CSHARP_BRACE) lx sym)
| Own_open_paren lx :
    valid_symbols CSHARP_EXPLICIT_EXPR_START = true ->
    own_return valid_symbols scanner
      (committed (array_push scanner CONTEXT_CSHARP_PAREN) lx
                 CSHARP_EXPLICIT_EXPR_START)
| Own_close lx :
    valid_symbols CSHARP_CONTEXT_CLOSE = true ->
    context_stack scanner <> [] ->
    closes (last (context_stack scanner) 0) (lookahead lx) ->
    own_return valid_symbols scanner
      (committed (array_pop scanner) (razor_advance lx) CSHARP_CONTEXT_CLOSE).

(** A family always answers (its loops end). *)
Definition answers {CS : CSharpScanner} (f : family) : Prop :=
  forall valid_symbols scanner lx, exists fl, f valid_symbols scanner lx = Some fl.

(** A family returns in one of the known ways. *)
Definition returns_own {CS : CSharpScanner} (f : family) : Prop :=
  forall valid_symbols scanner lx r,
    f valid_symbols scanner lx = Some (Return r) ->
    own_return valid_symbols scanner r.

(** [lx'] carries the same token marks as [lx] over the same input. *)
Definition same_token (lx lx' : TSLexer) : Prop :=
  input lx' = input lx /\ token_start lx' = token_start lx
  /\ token_end lx' = token_end lx.

(** The sub-scanner state of 255 nested interpolations: a blob of 1022
    bytes. *)
Definition deep_interpolations : SpecCSharp.state :=
  {| SpecCSharp.quote_count := 0;
     SpecCSharp.interpolation_stack :=
       repeat (SpecCSharp.mkInterpolation 1 0 0 0) 255 |}.

(** A sub-scanner state with two interpolations open. *)
Definition two_interpolations : SpecCSharp.state :=
  {| SpecCSharp.quote_count := 1;
     SpecCSharp.interpolation_stack :=
       [SpecCSharp.mkInterpolation 1 2 3 4; SpecCSharp.mkInterpolation 5 6 7 8] |}.

(** A scanner three regions deep over that sub-scanner state. *)
Definition nested_scanner : @RazorScanner SpecCSharp.scanner :=
  SpecCSharp.razor two_interpolations
    [CONTEXT_CSHARP_BRACE; CONTEXT_CSHARP_PAREN; CONTEXT_CSHARP_BRACE].

(** The four instantiations of the raw-content scanner in dispatch order,
    each with its kind and its tag name. *)
Definition raw_scanners {CS : CSharpScanner} : list (Z * list Z * family) :=
  [ (SCRIPT_CONTENT, str "script", script_content);
    (STYLE_CONTENT, str "style", style_content);
    (TITLE_CONTENT, str "title", title_content);
    (TEXTAREA_CONTENT, str "textarea", textarea_content) ].

(** [r] is the commit of kind [sym] over "abc", the marked end standing
    before a [<], the scanner left as it was. *)
Definition commits_abc {CS : CSharpScanner} (scanner : RazorScanner) (sym : Z)
    (r : outcome) : Prop :=
  returned r = true
  /\ result_symbol (lexer_after r) = sym
  /\ token_text (lexer_after r) = str "abc"
  /\ end_position (lexer_after r) = 3%nat
  /\ nth (end_position (lexer_after r)) (input (lexer_after r)) 0 = ch "<"
  /\ scanner_after r = scanner.

(** * Properties *)

(** ** The lexer *)

Lemma advanced_refl lx : advanced lx lx.
Proof. split; [reflexivity | apply Nat.le_refl]. Qed.

Lemma advanced_trans lx1 lx2 lx3 :
  advanced lx1 lx2 -> advanced lx2 lx3 -> advanced lx1 lx3.
Proof.
  intros [H1 H2] [H3 H4]. split; [congruence | eapply Nat.le_trans; eauto].
Qed.

Lemma advanced_advance lx skip : advanced lx (advance lx skip).
Proof.
  unfold advance. destruct (eof lx); [apply advanced_refl|].
  split; cbn; [reflexivity | apply Nat.le_succ_diag_r].
Qed.

Lemma advanced_mark_end lx : advanced lx (mark_end lx).
Proof. split; cbn; [reflexivity | apply Nat.le_refl]. Qed.

Lemma advanced_remaining lx lx' :
  advanced lx lx' -> (remaining lx' <= remaining lx)%nat.
Proof. intros [H1 H2]. unfold remaining. rewrite H1. lia. Qed.

Lemma eof_false_remaining lx : eof lx = false -> (0 < remaining lx)%nat.
Proof.
  unfold eof, remaining. intros H. apply Nat.leb_gt in H. lia.
Qed.

Lemma remaining_advance lx skip :
  eof lx = false -> (remaining (advance lx skip) < remaining lx)%nat.
Proof.
  intros H. pose proof (eof_false_remaining lx H) as Hr.
  unfold advance. rewrite H. unfold remaining in *. cbn. lia.
Qed.

Lemma lookahead_eof lx : eof lx = true -> lookahead lx = 0.
Proof.
  unfold eof, lookahead. intros H. apply Nat.leb_le in H.
  now apply nth_overflow.
Qed.

Lemma lookahead_nonzero lx : lookahead lx <> 0 -> eof lx = false.
Proof.
  intros H. destruct (eof lx) eqn:E; [|reflexivity].
  now apply lookahead_eof in E.
Qed.

Lemma remaining_mark_end lx : remaining (mark_end lx) = remaining lx.
Proof. reflexivity. Qed.

(** ** Loops *)

Section LoopFacts.

Context {St : Type} (body : St -> option (iter St)).

Lemma loop_break fuel s s' :
  body s = Some (Break s') -> loop (S fuel) body s = Some s'.
Proof. intros H. cbn. now rewrite H. Qed.

Lemma loop_continue fuel s s' :
  body s = Some (Continue s') -> loop (S fuel) body s = loop fuel body s'.
Proof. intros H. cbn. now rewrite H. Qed.

(** A loop whose body always answers and whose measure goes down each
    time round ends, given more fuel than the measure. *)
Lemma loop_total (m : St -> nat) :
  (forall s, exists r, body s = Some r) ->
  (forall s s', body s = Some (Continue s') -> (m s' < m s)%nat) ->
  forall fuel s, (m s < fuel)%nat -> exists s', loop fuel body s = Some s'.
Proof.
  intros Hbody Hdown. induction fuel as [|fuel IH]; intros s Hm; [lia|].
  destruct (Hbody s) as [[s'|s'] Hs].
  - rewrite (loop_continue _ _ _ Hs). apply IH.
    specialize (Hdown _ _ Hs). lia.
  - rewrite (loop_break _ _ _ Hs). eauto.
Qed.

(** A relation that every turn of the body respects holds between the
    state before the loop and the one after. *)
(** A loop that ends was left by a [Break]. *)
Lemma loop_exit fuel s s' :
  loop fuel body s = Some s' -> exists s0, body s0 = Some (Break s').
Proof.
  revert s. induction fuel as [|fuel IH]; intros s H; [discriminate|].
  cbn in H. destruct (body s) as [[s1|s1]|] eqn:E; try discriminate.
  - eapply IH, H.
  - injection H as <-. eauto.
Qed.

Lemma loop_relates (R : St -> St -> Prop) :
  (forall s, R s s) ->
  (forall s1 s2 s3, R s1 s2 -> R s2 s3 -> R s1 s3) ->
  (forall s s', body s = Some (Continue s') -> R s s') ->
  (forall s s', body s = Some (Break s') -> R s s') ->
  forall fuel s s', loop fuel body s = Some s' -> R s s'.
Proof.
  intros Hrefl Htrans Hc Hb. induction fuel as [|fuel IH]; intros s s' H.
  - discriminate.
  - cbn in H. destruct (body s) as [[s1|s1]|] eqn:E; try discriminate.
    + eapply Htrans; [apply Hc, E | apply IH, H].
    + injection H as <-. apply Hb, E.
Qed.

End LoopFacts.

(** ** Every loop of the scanner ends *)

Lemma guard_not_eof (guard : Z -> bool) lx :
  guard 0 = false -> guard (lookahead lx) = true -> eof lx = false.
Proof.
  intros H0 H. apply lookahead_nonzero. intros E. rewrite E in H. congruence.
Qed.

Ltac break_ifs :=
  repeat match goal with
    | H : context [if ?b then _ else _] |- _ => destruct b eqn:?
    | H : context [match ?x with Some _ => _ | None => _ end] |- _ =>
        destruct x eqn:?
    | H : Some _ = Some _ |- _ => injection H as H
    | H : Continue _ = Continue _ |- _ => injection H as H
    | H : Break _ = Break _ |- _ => injection H as H
    | H : Some _ = None |- _ => discriminate H
    | H : None = Some _ |- _ => discriminate H
    | H : Continue _ = Break _ |- _ => discriminate H
    | H : Break _ = Continue _ |- _ => discriminate H
    end.

Ltac split_ifs :=
  repeat match goal with
    | |- context [if ?b then _ else _] => destruct b eqn:?
    end.

Ltac bool_hyps :=
  repeat match goal with
    | H : _ && _ = true |- _ => apply andb_prop in H; destruct H
    | H : negb _ = true |- _ => apply negb_true_iff in H
    | H : negb _ = false |- _ => apply negb_false_iff in H
    end.

Lemma skip_whitespace_total lx : exists lx', skip_whitespace lx = Some lx'.
Proof.
  apply (loop_total _ remaining); [| |unfold fuel_for; lia].
  - intros s. unfold skip_whitespace_body. destruct (iswspace _); eauto.
  - intros s s' H. unfold skip_whitespace_body in H. break_ifs. subst s'.
    apply remaining_advance. now apply (guard_not_eof iswspace).
Qed.

Lemma rest_of_line_total lx : exists lx', rest_of_line lx = Some lx'.
Proof.
  apply (loop_total _ remaining); [| |unfold fuel_for; lia].
  - intros s. unfold rest_of_line_body. destruct (_ && _); eauto.
  - intros s s' H. unfold rest_of_line_body in H. break_ifs. subst s'.
    bool_hyps. now apply remaining_advance.
Qed.

Create HintDb lexer.
#[local] Hint Resolve advanced_refl advanced_advance advanced_mark_end : lexer.

Lemma email_tail_total lx : exists lx', email_tail lx = Some lx'.
Proof.
  apply (loop_total _ remaining); [| |unfold fuel_for; lia].
  - intros s. unfold email_tail_body. destruct (_ || _); eauto.
  - intros s s' H. unfold email_tail_body in H. break_ifs. subst s'.
    apply remaining_advance.
    now apply (guard_not_eof
      (fun c => is_email_char c || (c =? ch ".") || (c =? ch "-"))).
Qed.

Lemma email_tail_advanced lx lx' : email_tail lx = Some lx' -> advanced lx lx'.
Proof.
  unfold email_tail.
  apply (loop_relates email_tail_body advanced);
    [apply advanced_refl | apply advanced_trans | |];
    intros s s' H; unfold email_tail_body in H; break_ifs; subst;
    unfold razor_advance; auto with lexer.
Qed.

Lemma block_comment_total lx : exists lx', block_comment lx = Some lx'.
Proof.
  apply (loop_total _ remaining); [| |unfold fuel_for; lia].
  - intros s. unfold block_comment_body. split_ifs; eauto.
  - intros s s' H. unfold block_comment_body in H. break_ifs; subst s';
      now apply remaining_advance.
Qed.

Lemma keyword_peek_body_answers s : exists r, keyword_peek_body s = Some r.
Proof. unfold keyword_peek_body. destruct (_ && _); eauto. Qed.

Lemma keyword_peek_total lx : exists k, keyword_peek lx = Some k.
Proof.
  apply (loop_total _ (fun s => remaining (kw_lexer s)));
    [apply keyword_peek_body_answers | | cbn; unfold fuel_for; lia].
  intros s s' H. unfold keyword_peek_body in H. break_ifs. subst s'. cbn.
  bool_hyps. apply remaining_advance. now apply (guard_not_eof is_identifier_char).
Qed.

Lemma keyword_peek_loop_advanced fuel s s' :
  loop fuel keyword_peek_body s = Some s' -> advanced (kw_lexer s) (kw_lexer s').
Proof.
  apply (loop_relates keyword_peek_body
           (fun a b => advanced (kw_lexer a) (kw_lexer b)));
    [intros ?; apply advanced_refl | intros ? ? ?; apply advanced_trans | |];
    intros a b H; unfold keyword_peek_body in H; break_ifs; subst; cbn;
    unfold razor_advance; auto with lexer.
Qed.

(** A peek that starts on an identifier character moves the cursor. *)
Lemma keyword_peek_moves lx k :
  is_identifier_char (lookahead lx) = true ->
  keyword_peek lx = Some k ->
  input (kw_lexer k) = input lx /\ (remaining (kw_lexer k) < remaining lx)%nat.
Proof.
  intros Hid H. unfold keyword_peek, fuel_for in H.
  rewrite (loop_continue _ _ _
             {| kw_lexer := razor_advance lx;
                keyword_buf := [] ++ [to_char (lookahead lx)];
                keyword_len := 0 + 1 |}) in H.
  2:{ unfold keyword_peek_body. cbn. now rewrite Hid. }
  apply keyword_peek_loop_advanced in H. cbn in H.
  pose proof (advanced_remaining _ _ H) as Hr.
  pose proof (remaining_advance lx false
                (guard_not_eof is_identifier_char lx eq_refl Hid)) as Hlt.
  destruct H as [Hin _]. unfold razor_advance in *. split; [|lia].
  rewrite Hin. apply (advanced_advance lx false).
Qed.

Section ScannerLoops.

Context {CS : CSharpScanner}.

Lemma match_tag_advanced tag : forall i lx m j lx',
  match_tag tag i lx = (m, j, lx') -> advanced lx lx'.
Proof.
  induction tag as [|t tag IH]; intros i lx m j lx' H; cbn in H.
  - injection H as _ _ <-. apply advanced_refl.
  - destruct (negb _ && negb _).
    + injection H as _ _ <-. apply advanced_refl.
    + eapply advanced_trans; [apply (advanced_advance lx false)|].
      eapply IH, H.
Qed.

Lemma literal_at_body_answers s : exists r, literal_at_body s = Some r.
Proof.
  unfold literal_at_body.
  destruct (email_tail_total (razor_advance (at_lexer s))) as [lx2 ->].
  split_ifs; eauto.
Qed.

Lemma literal_at_total lx found word :
  exists s, loop (fuel_for lx) literal_at_body
                 {| at_lexer := lx; found_literal_at := found;
                    last_was_word := word |} = Some s.
Proof.
  apply (loop_total _ (fun s => remaining (at_lexer s)));
    [apply literal_at_body_answers | | cbn; unfold fuel_for; lia].
  intros s s' H. unfold literal_at_body in H. break_ifs; subst s'; cbn [at_lexer];
    bool_hyps;
    match goal with
    | E : eof (at_lexer s) = false |- _ =>
        pose proof (remaining_advance _ false E) as Hlt
    end; unfold razor_advance in *; rewrite ?remaining_mark_end; try lia.
  match goal with
  | E : email_tail _ = Some _ |- _ =>
      apply email_tail_advanced, advanced_remaining in E
  end. lia.
Qed.

Lemma html_text_body_answers s : exists r, html_text_body s = Some r.
Proof.
  unfold html_text_body.
  destruct (keyword_peek_total (mark_end (html_lexer s))) as [k ->].
  split_ifs; eauto.
Qed.

Lemma html_text_total lx content keyword line :
  exists s, loop (fuel_for lx) html_text_body
                 {| html_lexer := lx; has_content := content;
                    found_keyword := keyword; at_line_start := line |} = Some s.
Proof.
  apply (loop_total _ (fun s => remaining (html_lexer s)));
    [apply html_text_body_answers | | cbn; unfold fuel_for; lia].
  intros s s' H. unfold html_text_body in H.
  destruct (eof (html_lexer s)) eqn:E; [discriminate|].
  pose proof (remaining_advance _ false E) as Hlt.
  break_ifs; subst s'; cbn [html_lexer]; unfold razor_advance in *;
    rewrite ?remaining_mark_end; try lia.
  match goal with
  | K : keyword_peek _ = Some _ |- _ =>
      apply keyword_peek_moves in K; [rewrite remaining_mark_end in K; lia|]
  end.
  change (is_identifier_char (lookahead (html_lexer s)) = true). bool_hyps.
  match goal with
  | C : (_ || _ || _) = true |- _ =>
      repeat (apply orb_prop in C; destruct C as [C|C]);
        apply Z.eqb_eq in C; rewrite C; reflexivity
  end.
Qed.

Lemma raw_content_body_answers tag len s :
  exists r, raw_content_body tag len s = Some r.
Proof.
  unfold raw_content_body.
  destruct (match_tag tag 0 _) as [[m i] lx2]. split_ifs; eauto.
Qed.

Lemma raw_content_total tag len lx content :
  exists s, loop (fuel_for lx) (raw_content_body tag len)
                 {| raw_lexer := lx; raw_has_content := content |} = Some s.
Proof.
  apply (loop_total _ (fun s => remaining (raw_lexer s)));
    [apply raw_content_body_answers | | cbn; unfold fuel_for; lia].
  intros s s' H. unfold raw_content_body in H.
  destruct (eof (raw_lexer s)) eqn:E; [discriminate|].
  pose proof (remaining_advance _ false E) as Hlt.
  destruct (match_tag tag 0 _) as [[m i] lx2] eqn:M.
  apply match_tag_advanced, advanced_remaining in M.
  pose proof (advanced_remaining _ _
                (advanced_advance (razor_advance (mark_end (raw_lexer s))) false)).
  break_ifs; subst s'; cbn [raw_lexer]; unfold razor_advance in *;
    rewrite ?remaining_mark_end in *; try lia.
  - pose proof (remaining_advance (mark_end (raw_lexer s)) false E).
    rewrite remaining_mark_end in *. lia.
  - pose proof (remaining_advance (mark_end (raw_lexer s)) false E).
    rewrite remaining_mark_end in *. lia.
Qed.

End ScannerLoops.

(** ** The families: each one answers, and returns in one of the known ways *)

Section Families.

Context {CS : CSharpScanner}.

Lemma in_csharp_context_true scanner :
  in_csharp_context scanner = true -> context_stack scanner <> [].
Proof.
  unfold in_csharp_context. destruct (context_stack scanner); [discriminate|].
  discriminate.
Qed.

Lemma in_csharp_context_false scanner :
  in_csharp_context scanner = false -> context_stack scanner = [].
Proof.
  unfold in_csharp_context. destruct (context_stack scanner); [reflexivity|].
  cbn [length]. intros H. apply Z.ltb_ge in H. lia.
Qed.

Lemma text_with_literal_at_answers : answers text_with_literal_at.
Proof.
  intros v sc lx. unfold text_with_literal_at.
  destruct (literal_at_total lx false false) as [s ->]. split_ifs; eauto.
Qed.

Lemma html_text_content_answers : answers html_text_content.
Proof.
  intros v sc lx. unfold html_text_content.
  destruct (html_text_total lx false false true) as [s ->]. split_ifs; eauto.
Qed.

Lemma csharp_start_answers : answers csharp_start.
Proof. intros v sc lx. unfold csharp_start. split_ifs; eauto. Qed.

Lemma razor_block_open_answers : answers razor_block_open.
Proof.
  intros v sc lx. unfold razor_block_open.
  destruct (skip_whitespace_total lx) as [lx1 ->]. split_ifs; eauto.
Qed.

Lemma csharp_context_close_answers : answers csharp_context_close.
Proof.
  intros v sc lx. unfold csharp_context_close.
  destruct (skip_whitespace_total lx) as [lx1 ->]. split_ifs; eauto.
Qed.

Lemma csharp_comment_answers : answers csharp_comment.
Proof.
  intros v sc lx. unfold csharp_comment.
  destruct (rest_of_line_total (razor_advance (razor_advance lx))) as [l1 ->].
  destruct (block_comment_total (razor_advance (razor_advance lx))) as [l2 ->].
  split_ifs; eauto.
Qed.

Lemma csharp_preproc_answers : answers csharp_preproc.
Proof.
  intros v sc lx. unfold csharp_preproc.
  destruct (rest_of_line_total (razor_advance lx)) as [l1 ->].
  destruct (_ && _); eauto.
Qed.

Lemma raw_content_answers sym tag len lower upper :
  answers (raw_content sym tag len lower upper).
Proof.
  intros v sc lx. unfold raw_content.
  destruct (raw_content_total tag len lx false) as [s ->]. split_ifs; eauto.
Qed.

Lemma razor_families_answer : Forall answers razor_families.
Proof.
  repeat constructor;
    auto using text_with_literal_at_answers, html_text_content_answers,
      csharp_start_answers, razor_block_open_answers,
      csharp_context_close_answers, csharp_comment_answers,
      csharp_preproc_answers; apply raw_content_answers.
Qed.

Lemma run_families_answers fs :
  Forall answers fs ->
  forall valid_symbols scanner lx,
    exists fl, run_families fs valid_symbols scanner lx = Some fl.
Proof.
  induction 1 as [|f fs Hf _ IH]; intros v sc lx; cbn; [eauto|].
  destruct (Hf v sc lx) as [[r|lx'] ->]; eauto.
Qed.

(** The scan always returns. *)
Lemma scan_total scanner lx valid_symbols :
  exists r, tree_sitter_razor_external_scanner_scan scanner lx valid_symbols
            = Some r.
Proof.
  unfold tree_sitter_razor_external_scanner_scan, razor_scan.
  destruct (run_families_answers _ razor_families_answer valid_symbols scanner lx)
    as [[r|lx'] ->]; eauto.
Qed.

Ltac own_cases :=
  intros v sc lx r H;
  repeat match goal with
    | H : context [in_csharp_context ?s] |- _ =>
        let E := fresh "Ectx" in
        destruct (in_csharp_context s) eqn:E;
        [apply in_csharp_context_true in E
        |apply in_csharp_context_false in E]
    end;
  break_ifs; try discriminate;
  unfold commit, decline in *;
  repeat match goal with
    | H : Return _ = Return _ |- _ => injection H as H
    | H : Some _ = Some _ |- _ => injection H as H
    end;
  try discriminate; subst r;
  cbn [negb andb orb] in *; bool_hyps; try discriminate.

Lemma text_with_literal_at_returns : returns_own text_with_literal_at.
Proof.
  unfold text_with_literal_at; own_cases.
  apply Own_text; auto.
Qed.

Lemma html_text_content_returns : returns_own html_text_content.
Proof.
  unfold html_text_content; own_cases.
  - apply Own_text; auto.
  - apply Own_decline. left. auto.
Qed.

Lemma csharp_start_returns : returns_own csharp_start.
Proof.
  unfold csharp_start; own_cases.
  - apply Own_open_brace; auto.
  - apply Own_open_paren; auto.
  - apply Own_decline. right; left.
    match goal with
    | H : _ || _ = true |- _ => apply orb_prop in H; exact H
    end.
Qed.

Lemma razor_block_open_returns : returns_own razor_block_open.
Proof.
  unfold razor_block_open; own_cases.
  apply Own_open_brace; auto.
Qed.

Lemma closes_of_test top c :
  ((top =? CONTEXT_CSHARP_BRACE) && (c =? ch "}"))
  || ((top =? CONTEXT_CSHARP_PAREN) && (c =? ch ")")) = true ->
  closes top c.
Proof.
  intros H. apply orb_prop in H. unfold closes.
  destruct H as [H|H]; apply andb_prop in H; destruct H as [H1 H2];
    apply Z.eqb_eq in H1, H2; auto.
Qed.

Lemma closes_test top c :
  closes top c ->
  ((top =? CONTEXT_CSHARP_BRACE) && (c =? ch "}"))
  || ((top =? CONTEXT_CSHARP_PAREN) && (c =? ch ")")) = true.
Proof.
  intros [[-> ->]|[-> ->]]; reflexivity.
Qed.

Lemma csharp_context_close_returns : returns_own csharp_context_close.
Proof.
  intros v sc lx r H. unfold csharp_context_close in H.
  fold (in_csharp_context sc) in H.
  destruct (v CSHARP_CONTEXT_CLOSE) eqn:Hv; cbn [andb] in H; [|discriminate].
  destruct (in_csharp_context sc) eqn:Hc; [|discriminate].
  apply in_csharp_context_true in Hc.
  destruct (skip_whitespace lx) as [lx1|]; [|discriminate].
  destruct (_ || _) eqn:Ht; [|discriminate].
  injection H as <-. apply closes_of_test in Ht. now apply Own_close.
Qed.

Lemma csharp_comment_returns : returns_own csharp_comment.
Proof.
  unfold csharp_comment; own_cases;
    try (apply Own_extra; auto); apply Own_decline; right; right; left; auto.
Qed.

Lemma csharp_preproc_returns : returns_own csharp_preproc.
Proof.
  unfold csharp_preproc; own_cases; apply Own_extra; auto.
Qed.

Lemma raw_content_returns sym tag len lower upper :
  In sym (map fst raw_kinds) ->
  returns_own (raw_content sym tag len lower upper).
Proof.
  intros Hin. unfold raw_content; own_cases;
    try (apply Own_raw; auto);
    apply Own_decline; right; right; right; eauto.
Qed.

Lemma razor_families_return : Forall returns_own razor_families.
Proof.
  repeat constructor;
    auto using text_with_literal_at_returns, html_text_content_returns,
      csharp_start_returns, razor_block_open_returns,
      csharp_context_close_returns, csharp_comment_returns,
      csharp_preproc_returns;
    apply raw_content_returns; cbn; auto.
Qed.

Lemma run_families_returns fs :
  Forall returns_own fs ->
  forall valid_symbols scanner lx r,
    run_families fs valid_symbols scanner lx = Some (Return r) ->
    own_return valid_symbols scanner r.
Proof.
  induction 1 as [|f fs Hf _ IH]; intros v sc lx r H; cbn in H; [discriminate|].
  destruct (f v sc lx) as [[r'|lx']|] eqn:E; try discriminate.
  - injection H as <-. eapply Hf, E.
  - eapply IH, H.
Qed.

Lemma razor_scan_returns valid_symbols scanner lx r :
  razor_scan valid_symbols scanner lx = Some (Return r) ->
  own_return valid_symbols scanner r.
Proof. apply run_families_returns, razor_families_return. Qed.

(** However the scan ends, it ends through the sub-scanner or through one
    of the scanner's own returns. *)
Lemma scan_cases scanner lx valid_symbols :
  exists r,
    tree_sitter_razor_external_scanner_scan scanner lx valid_symbols = Some r
    /\ ((exists lx', razor_scan valid_symbols scanner lx = Some (Next lx')
                     /\ r = delegate valid_symbols scanner lx')
        \/ (razor_scan valid_symbols scanner lx = Some (Return r)
            /\ own_return valid_symbols scanner r)).
Proof.
  unfold tree_sitter_razor_external_scanner_scan.
  destruct (run_families_answers _ razor_families_answer valid_symbols scanner lx)
    as [[r|lx'] E]; fold razor_scan in E; rewrite E.
  - exists r. split; [reflexivity|]. right. split; [reflexivity|].
    now apply razor_scan_returns in E.
  - eexists. split; [reflexivity|]. left. eauto.
Qed.

Lemma delegate_stack valid_symbols scanner lx :
  context_stack (scanner_after (delegate valid_symbols scanner lx))
  = context_stack scanner.
Proof.
  unfold delegate.
  destruct (tree_sitter_c_sharp_external_scanner_scan _ _ _) as [[b cs'] lx'].
  reflexivity.
Qed.

Lemma delegate_kind valid_symbols scanner lx :
  own_kinds CS ->
  returned (delegate valid_symbols scanner lx) = true ->
  0 <= result_symbol (lexer_after (delegate valid_symbols scanner lx))
    < CSHARP_TOKEN_COUNT.
Proof.
  intros Hown. unfold delegate.
  destruct (tree_sitter_c_sharp_external_scanner_scan _ _ _)
    as [[b cs'] lx'] eqn:E.
  cbn. intros ->. eapply Hown; eauto.
Qed.

End Families.

(** ** The sub-scanners used to run the scanner *)

Lemma probe_own_kinds : own_kinds Probe.scanner.
Proof.
  intros cs lx v b cs' lx' H _. cbn in H. injection H as _ _ <-.
  cbn. unfold CSHARP_TOKEN_COUNT. lia.
Qed.

(** ** Mode gating and mode transitions *)

Ltac own_inversion H :=
  inversion H; subst; clear H;
  cbn [returned scanner_after lexer_after committed declined
       set_result_symbol result_symbol array_push array_pop context_stack] in *;
  repeat match goal with
    | H : _ \/ _ |- _ => destruct H
    | H : In _ _ |- _ => cbn in H
    | H : False |- _ => destruct H
    end; subst.

(** C1: with the mode stack empty, no call to scan commits CSHARP_COMMENT
    or CSHARP_PREPROC, whatever the input and the admissible symbols (the
    sub-scanner committing kinds of its own catalogue only). *)
Theorem comment_and_preproc_need_context {CS : CSharpScanner}
    (Hown : own_kinds CS) scanner lx valid_symbols :
  context_stack scanner = [] ->
  exists r,
    tree_sitter_razor_external_scanner_scan scanner lx valid_symbols = Some r
    /\ (returned r = true ->
        result_symbol (lexer_after r) <> CSHARP_COMMENT
        /\ result_symbol (lexer_after r) <> CSHARP_PREPROC).
Proof.
  intros Hempty.
  destruct (scan_cases scanner lx valid_symbols) as [r [Hr Hcase]].
  exists r. split; [exact Hr|]. intros Hret.
  destruct Hcase as [[lx' [_ ->]]|[_ Hown_r]].
  - pose proof (delegate_kind valid_symbols scanner lx' Hown Hret) as Hk.
    unfold CSHARP_TOKEN_COUNT, CSHARP_COMMENT, CSHARP_PREPROC in *. lia.
  - own_inversion Hown_r; try discriminate; try contradiction;
      split; intros E; vm_compute in E; discriminate.
Qed.

Lemma comment_and_preproc_need_context_witness :
  own_kinds Probe.scanner
  /\ exists r,
       tree_sitter_razor_external_scanner_scan
         (Probe.razor [])
         (start (str "// no comment in markup"))
         (only [CSHARP_COMMENT; CSHARP_PREPROC]) = Some r
       /\ (returned r = true ->
           result_symbol (lexer_after r) <> CSHARP_COMMENT
           /\ result_symbol (lexer_after r) <> CSHARP_PREPROC).
Proof.
  split; [exact probe_own_kinds|].
  apply (comment_and_preproc_need_context probe_own_kinds). reflexivity.
Defined.

(** C10: a call to scan changes the mode stack only through the four
    mode-transition commits: CSHARP_CODE_BLOCK_START and RAZOR_BLOCK_OPEN
    push one brace tag, CSHARP_EXPLICIT_EXPR_START pushes one parenthesis
    tag, CSHARP_CONTEXT_CLOSE pops one tag, and every other outcome, a
    decline or the commit of any other kind, leaves the stack as it was. *)
Theorem scan_changes_stack_by_transitions_only {CS : CSharpScanner}
    (Hown : own_kinds CS) scanner lx valid_symbols :
  exists r,
    tree_sitter_razor_external_scanner_scan scanner lx valid_symbols = Some r
    /\ let stack := context_stack scanner in
       let stack' := context_stack (scanner_after r) in
       let sym := result_symbol (lexer_after r) in
       (returned r = true ->
        sym = CSHARP_CODE_BLOCK_START \/ sym = RAZOR_BLOCK_OPEN ->
        stack' = stack ++ [CONTEXT_CSHARP_BRACE])
       /\ (returned r = true -> sym = CSHARP_EXPLICIT_EXPR_START ->
           stack' = stack ++ [CONTEXT_CSHARP_PAREN])
       /\ (returned r = true -> sym = CSHARP_CONTEXT_CLOSE ->
           exists top, stack = stack' ++ [top])
       /\ (returned r = false
           \/ (sym <> CSHARP_CODE_BLOCK_START /\ sym <> RAZOR_BLOCK_OPEN
               /\ sym <> CSHARP_EXPLICIT_EXPR_START
               /\ sym <> CSHARP_CONTEXT_CLOSE) ->
           stack' = stack).
Proof.
  destruct (scan_cases scanner lx valid_symbols) as [r [Hr Hcase]].
  exists r. split; [exact Hr|]. cbv zeta.
  destruct Hcase as [[lx' [_ ->]]|[_ Hown_r]].
  - rewrite delegate_stack.
    assert (Hk : returned (delegate valid_symbols scanner lx') = true ->
                 0 <= result_symbol (lexer_after (delegate valid_symbols scanner lx'))
                   < 12)
      by (intros Hret; apply (delegate_kind _ _ _ Hown Hret)).
    repeat split; intros Hret; try reflexivity;
      specialize (Hk Hret); intros E;
      try (destruct E as [E|E]); rewrite E in Hk; vm_compute in Hk;
      destruct Hk; congruence.
  - own_inversion Hown_r;
      repeat split; intros;
      repeat match goal with
        | H : _ \/ _ |- _ => destruct H
        | H : _ /\ _ |- _ => destruct H
        end;
      try discriminate; try reflexivity; try congruence;
      try match goal with
        | H : context_stack ?s <> [] |- exists top, context_stack ?s = _ =>
            exists (last (context_stack s) 0);
            now apply app_removelast_last
        end.
Qed.

Lemma scan_changes_stack_by_transitions_only_witness :
  own_kinds Probe.scanner
  /\ exists r,
       tree_sitter_razor_external_scanner_scan
         (Probe.razor [CONTEXT_CSHARP_BRACE])
         (start (str "@(x) }"))
         (only [CSHARP_EXPLICIT_EXPR_START; CSHARP_CONTEXT_CLOSE]) = Some r
       /\ let stack := [CONTEXT_CSHARP_BRACE] in
          let stack' := context_stack (scanner_after r) in
          let sym := result_symbol (lexer_after r) in
          (returned r = true ->
           sym = CSHARP_CODE_BLOCK_START \/ sym = RAZOR_BLOCK_OPEN ->
           stack' = stack ++ [CONTEXT_CSHARP_BRACE])
          /\ (returned r = true -> sym = CSHARP_EXPLICIT_EXPR_START ->
              stack' = stack ++ [CONTEXT_CSHARP_PAREN])
          /\ (returned r = true -> sym = CSHARP_CONTEXT_CLOSE ->
              exists top, stack = stack' ++ [top])
          /\ (returned r = false
              \/ (sym <> CSHARP_CODE_BLOCK_START /\ sym <> RAZOR_BLOCK_OPEN
                  /\ sym <> CSHARP_EXPLICIT_EXPR_START
                  /\ sym <> CSHARP_CONTEXT_CLOSE) ->
              stack' = stack).
Proof.
  split; [exact probe_own_kinds|].
  exact (scan_changes_stack_by_transitions_only probe_own_kinds
           (Probe.razor [CONTEXT_CSHARP_BRACE])
           (start (str "@(x) }"))
           (only [CSHARP_EXPLICIT_EXPR_START; CSHARP_CONTEXT_CLOSE])).
Defined.

(** ** When a family lets the control through *)

Ltac reduce_bool t :=
  let v := eval vm_compute in t in
  lazymatch v with
  | true => change t with true
  | false => change t with false
  end.

Ltac eval_tests :=
  repeat match goal with
    | |- context [?a =? ?b] => reduce_bool (a =? b)
    | |- context [iswspace ?a] => reduce_bool (iswspace a)
    | |- context [is_email_char ?a] => reduce_bool (is_email_char a)
    | |- context [is_identifier_char ?a] => reduce_bool (is_identifier_char a)
    end;
  cbn [andb orb negb].

Section Passing.

Context {CS : CSharpScanner}.
Variables (valid_symbols : Z -> bool) (scanner : RazorScanner) (lx : TSLexer).

Lemma skip_whitespace_none :
  iswspace (lookahead lx) = false -> skip_whitespace lx = Some lx.
Proof.
  intros H. unfold skip_whitespace, fuel_for. apply loop_break.
  unfold skip_whitespace_body. now rewrite H.
Qed.

Lemma text_with_literal_at_off :
  valid_symbols TEXT_WITH_LITERAL_AT && negb (in_csharp_context scanner) = false ->
  text_with_literal_at valid_symbols scanner lx = Some (Next lx).
Proof. intros H. unfold text_with_literal_at. now rewrite H. Qed.

Lemma html_text_content_off :
  valid_symbols HTML_TEXT_CONTENT && negb (in_csharp_context scanner) = false ->
  html_text_content valid_symbols scanner lx = Some (Next lx).
Proof. intros H. unfold html_text_content. now rewrite H. Qed.

(** Both text families stop at once on [<] and on [@]. *)
Lemma text_with_literal_at_stops :
  lookahead lx = ch "<" \/ lookahead lx = ch "@" ->
  text_with_literal_at valid_symbols scanner lx = Some (Next lx).
Proof.
  intros H. unfold text_with_literal_at. destruct (_ && _); [|reflexivity].
  unfold fuel_for.
  rewrite (loop_break _ _ _ {| at_lexer := lx; found_literal_at := false;
                               last_was_word := false |}); [reflexivity|].
  unfold literal_at_body. cbn [at_lexer last_was_word].
  destruct H as [-> | ->]; eval_tests; rewrite ?andb_false_r;
    try reflexivity.
  now destruct (negb (eof lx)).
Qed.

Lemma html_text_content_stops :
  lookahead lx = ch "<" \/ lookahead lx = ch "@" ->
  html_text_content valid_symbols scanner lx = Some (Next lx).
Proof.
  intros H. unfold html_text_content. destruct (_ && _); [|reflexivity].
  unfold fuel_for.
  rewrite (loop_break _ _ _ {| html_lexer := lx; has_content := false;
                               found_keyword := false; at_line_start := true |});
    [reflexivity|].
  unfold html_text_body. cbn [html_lexer].
  destruct (eof lx); [reflexivity|].
  destruct H as [-> | ->]; eval_tests; reflexivity.
Qed.

Lemma csharp_start_passes :
  lookahead lx <> ch "@" ->
  csharp_start valid_symbols scanner lx = Some (Next lx).
Proof.
  intros H. unfold csharp_start. apply Z.eqb_neq in H. rewrite H.
  now rewrite andb_false_r.
Qed.

Lemma razor_block_open_passes :
  iswspace (lookahead lx) = false -> lookahead lx <> ch "{" ->
  razor_block_open valid_symbols scanner lx = Some (Next lx).
Proof.
  intros Hw H. unfold razor_block_open. rewrite (skip_whitespace_none Hw).
  apply Z.eqb_neq in H. rewrite H. now destruct (valid_symbols _).
Qed.

Lemma csharp_context_close_passes :
  iswspace (lookahead lx) = false ->
  ~ closes (last (context_stack scanner) 0) (lookahead lx) ->
  csharp_context_close valid_symbols scanner lx = Some (Next lx).
Proof.
  intros Hw H. unfold csharp_context_close. rewrite (skip_whitespace_none Hw).
  destruct (_ && _); [|reflexivity].
  destruct (_ || _) eqn:E; [|reflexivity].
  now apply closes_of_test in E.
Qed.

Lemma csharp_comment_passes :
  lookahead lx <> ch "/" ->
  csharp_comment valid_symbols scanner lx = Some (Next lx).
Proof.
  intros H. unfold csharp_comment. apply Z.eqb_neq in H. rewrite H.
  now destruct (_ && _).
Qed.

Lemma csharp_preproc_passes :
  lookahead lx <> ch "#" ->
  csharp_preproc valid_symbols scanner lx = Some (Next lx).
Proof.
  intros H. unfold csharp_preproc. apply Z.eqb_neq in H. rewrite H.
  now rewrite andb_false_r.
Qed.

Lemma raw_content_off sym tag len lower upper :
  valid_symbols sym = false ->
  raw_content sym tag len lower upper valid_symbols scanner lx = Some (Next lx).
Proof. intros H. unfold raw_content. now rewrite H. Qed.

(** A raw-content scanner that finds [<] first declines. *)
Lemma raw_content_at_lt sym tag len lower upper :
  valid_symbols sym = true -> lookahead lx = ch "<" ->
  exists lx', raw_content sym tag len lower upper valid_symbols scanner lx
              = Some (decline scanner lx').
Proof.
  intros Hv H. unfold raw_content. rewrite Hv, H. eval_tests.
  split_ifs; eauto.
Qed.

End Passing.

(** ** Raw content *)

Ltac char_neq H :=
  rewrite H; intros Hneq; vm_compute in Hneq; discriminate Hneq.

(** C5: when one of the four raw-content kinds is admissible and the first
    lookahead character is [<], the scan declines: one of the scanner's own
    families returns false, the sub-scanner is not asked, and the scanner is
    left as it was, whatever follows the [<]. *)
Theorem raw_content_declines_at_lt {CS : CSharpScanner}
    scanner lx valid_symbols sym :
  In sym (map fst raw_kinds) ->
  valid_symbols sym = true ->
  lookahead lx = ch "<" ->
  exists r,
    tree_sitter_razor_external_scanner_scan scanner lx valid_symbols = Some r
    /\ razor_scan valid_symbols scanner lx = Some (Return r)
    /\ returned r = false
    /\ scanner_after r = scanner.
Proof.
  intros Hin Hv Hlt.
  assert (Hw : iswspace (lookahead lx) = false) by (rewrite Hlt; reflexivity).
  unfold tree_sitter_razor_external_scanner_scan, razor_scan, razor_families.
  cbn [run_families].
  rewrite text_with_literal_at_stops, html_text_content_stops by auto.
  rewrite csharp_start_passes by char_neq Hlt.
  rewrite razor_block_open_passes by (auto; char_neq Hlt).
  rewrite csharp_context_close_passes
    by (auto; rewrite Hlt; intros [[_ E]|[_ E]]; vm_compute in E; discriminate).
  rewrite csharp_comment_passes by char_neq Hlt.
  rewrite csharp_preproc_passes by char_neq Hlt.
  unfold script_content, style_content, title_content, textarea_content.
  cbn in Hin.
  destruct (valid_symbols SCRIPT_CONTENT) eqn:V1.
  { destruct (raw_content_at_lt valid_symbols scanner lx SCRIPT_CONTENT
                (str "script") 6 (ch "s") (ch "S") V1 Hlt) as [lx' ->].
    eexists; repeat split. }
  rewrite raw_content_off by assumption.
  destruct (valid_symbols STYLE_CONTENT) eqn:V2.
  { destruct (raw_content_at_lt valid_symbols scanner lx STYLE_CONTENT
                (str "style") 5 (ch "s") (ch "S") V2 Hlt) as [lx' ->].
    eexists; repeat split. }
  rewrite raw_content_off by assumption.
  destruct (valid_symbols TITLE_CONTENT) eqn:V3.
  { destruct (raw_content_at_lt valid_symbols scanner lx TITLE_CONTENT
                (str "title") 5 (ch "t") (ch "T") V3 Hlt) as [lx' ->].
    eexists; repeat split. }
  rewrite raw_content_off by assumption.
  destruct (valid_symbols TEXTAREA_CONTENT) eqn:V4.
  { destruct (raw_content_at_lt valid_symbols scanner lx TEXTAREA_CONTENT
                (str "textarea") 8 (ch "t") (ch "T") V4 Hlt) as [lx' ->].
    eexists; repeat split. }
  exfalso. destruct Hin as [<-|[<-|[<-|[<-|[]]]]]; congruence.
Qed.

Lemma raw_content_declines_at_lt_witness :
  In STYLE_CONTENT (map fst raw_kinds)
  /\ only [STYLE_CONTENT] STYLE_CONTENT = true
  /\ lookahead (start (str "<b>not a closing tag</b></style>")) = ch "<"
  /\ exists r,
       tree_sitter_razor_external_scanner_scan
         (Probe.razor []) (start (str "<b>not a closing tag</b></style>"))
         (only [STYLE_CONTENT]) = Some r
       /\ razor_scan (only [STYLE_CONTENT]) (Probe.razor [])
            (start (str "<b>not a closing tag</b></style>")) = Some (Return r)
       /\ returned r = false
       /\ scanner_after r = Probe.razor [].
Proof.
  assert (Hin : In STYLE_CONTENT (map fst raw_kinds)) by (cbn; auto).
  split; [exact Hin|]. split; [reflexivity|]. split; [reflexivity|].
  exact (raw_content_declines_at_lt (Probe.razor [])
           (start (str "<b>not a closing tag</b></style>"))
           (only [STYLE_CONTENT]) STYLE_CONTENT Hin eq_refl eq_refl).
Defined.

Section RawContent.

Context {CS : CSharpScanner}.

Lemma same_token_advance lx : same_token lx (razor_advance lx).
Proof.
  unfold razor_advance, advance, same_token. destruct (eof lx); cbn; auto.
Qed.

Lemma match_tag_same_token tag : forall i lx m j lx',
  match_tag tag i lx = (m, j, lx') -> same_token lx lx'.
Proof.
  induction tag as [|t tag IH]; intros i lx m j lx' H; cbn in H.
  - injection H as _ _ <-. repeat split.
  - destruct (negb _ && negb _).
    + injection H as _ _ <-. repeat split.
    + apply IH in H. destruct H as (H1 & H2 & H3).
      destruct (same_token_advance lx) as (A1 & A2 & A3).
      repeat split; congruence.
Qed.

Lemma rest_of_input_cons lx c l :
  rest_of_input lx = c :: l ->
  lookahead lx = c /\ eof lx = false
  /\ forall skip, rest_of_input (advance lx skip) = l.
Proof.
  unfold rest_of_input. intros H.
  assert (Hlen : (position lx < length (input lx))%nat).
  { destruct (Nat.lt_ge_cases (position lx) (length (input lx))) as [L|L]; auto.
    rewrite skipn_all2 in H by exact L. discriminate. }
  assert (E : eof lx = false) by (apply Nat.leb_gt; exact Hlen).
  repeat split; [|exact E|].
  - unfold lookahead.
    rewrite <- (firstn_skipn (position lx) (input lx)) at 1.
    rewrite app_nth2; rewrite length_firstn, Nat.min_l by lia; [|lia].
    rewrite Nat.sub_diag, H. reflexivity.
  - intros skip. unfold advance. rewrite E. cbn [position input].
    change (S (position lx)) with (1 + position lx)%nat.
    rewrite <- skipn_skipn, H. reflexivity.
Qed.

Lemma match_tag_case_variant tag variant :
  case_variant tag variant ->
  forall i lx tail,
    rest_of_input lx = variant ++ tail ->
    fst (match_tag tag i lx) = (true, i + Z.of_nat (length tag)).
Proof.
  induction 1 as [|t c tag variant Hc _ IH]; intros i lx tail Hrest.
  - cbn. f_equal. lia.
  - cbn [match_tag]. cbn [app] in Hrest.
    destruct (rest_of_input_cons _ _ _ Hrest) as (Hla & _ & Hadv).
    rewrite Hla.
    assert (E : negb (c =? t) && negb (c =? t - 32) = false).
    { destruct Hc as [-> | ->]; rewrite Z.eqb_refl; cbn;
        auto using andb_false_r. }
    rewrite E. unfold razor_advance. rewrite (IH _ _ tail (Hadv false)).
    f_equal. cbn [length]. lia.
Qed.

Lemma raw_content_body_char tag len lx content :
  eof lx = false -> lookahead lx <> ch "<" ->
  raw_content_body tag len {| raw_lexer := lx; raw_has_content := content |}
  = Some (Continue {| raw_lexer := mark_end (razor_advance lx);
                      raw_has_content := true |}).
Proof.
  intros E H. unfold raw_content_body. cbn [raw_lexer]. rewrite E.
  apply Z.eqb_neq in H. now rewrite H.
Qed.

Lemma raw_content_abc sym tag lower upper valid_symbols scanner variant tail :
  case_variant tag variant ->
  valid_symbols sym = true ->
  exists lx',
    raw_content sym tag (Z.of_nat (length tag)) lower upper valid_symbols scanner
      (start (str "abc" ++ str "</" ++ variant ++ tail))
    = Some (commit scanner lx' sym)
    /\ same_token
         {| input := str "abc" ++ str "</" ++ variant ++ tail;
            position := 3; token_start := 0; token_end := Some 3%nat;
            result_symbol := 0 |} lx'.
Proof.
  intros Hvar Hv. unfold raw_content. rewrite Hv.
  change (str "abc" ++ str "</" ++ variant ++ tail)
    with (97 :: 98 :: 99 :: 60 :: 47 :: variant ++ tail).
  set (text := 97 :: 98 :: 99 :: 60 :: 47 :: variant ++ tail).
  change (lookahead (start text) =? ch "<") with false. cbv iota.
  unfold fuel_for, remaining. cbn [input start position length text Nat.sub].
  do 3 (erewrite loop_continue
          by (apply raw_content_body_char;
              [reflexivity | intros E; vm_compute in E; discriminate E])).
  set (lx3 := mark_end (razor_advance (mark_end (razor_advance
                (mark_end (razor_advance (start text))))))).
  destruct (match_tag tag 0 (razor_advance (razor_advance (mark_end lx3))))
    as [[m i] lx'] eqn:M.
  pose proof (match_tag_case_variant tag variant Hvar 0
                (razor_advance (razor_advance (mark_end lx3))) tail eq_refl)
    as Hm.
  rewrite M in Hm. cbn [fst] in Hm. injection Hm as -> ->.
  exists lx'. split.
  - rewrite (loop_break _ _ _ {| raw_lexer := lx'; raw_has_content := true |});
      [reflexivity|].
    unfold raw_content_body. cbn [raw_lexer raw_has_content].
    change (eof lx3) with false.
    change (lookahead lx3 =? ch "<") with true.
    change (lookahead (razor_advance (mark_end lx3)) =? ch "/") with true.
    cbv iota. rewrite M. cbn [andb]. rewrite Z.eqb_refl. reflexivity.
  - apply match_tag_same_token in M. exact M.
Qed.

End RawContent.

(** C6: for each raw-content scanner and its tag name, on the input "abc",
    "</", the tag name in any mix of ASCII cases, ">rest", the scanner
    commits its content kind over exactly "abc", the marked end standing
    just before the [<] of the closing tag; and so does the whole scan
    whenever that scanner is the one the dispatcher runs: no raw-content
    kind dispatched before it is admissible and the two text families do
    not apply. *)
Theorem raw_content_stops_before_closing_tag {CS : CSharpScanner}
    scanner valid_symbols sym tag scan_raw variant :
  In (sym, tag, scan_raw) raw_scanners ->
  case_variant tag variant ->
  valid_symbols sym = true ->
  let lx := start (str "abc" ++ str "</" ++ variant ++ str ">rest") in
  (exists r,
      scan_raw valid_symbols scanner lx = Some (Return r)
      /\ commits_abc scanner sym r)
  /\ ((forall k, In k (map fst raw_kinds) -> k < sym ->
                 valid_symbols k = false) ->
      valid_symbols TEXT_WITH_LITERAL_AT && negb (in_csharp_context scanner)
      = false ->
      valid_symbols HTML_TEXT_CONTENT && negb (in_csharp_context scanner)
      = false ->
      exists r,
        tree_sitter_razor_external_scanner_scan scanner lx valid_symbols
        = Some r
        /\ commits_abc scanner sym r).
Proof.
  intros Hin Hvar Hv lx.
  assert (Hfinal : forall lx',
    same_token {| input := str "abc" ++ str "</" ++ variant ++ str ">rest";
                  position := 3; token_start := 0; token_end := Some 3%nat;
                  result_symbol := 0 |} lx' ->
    commits_abc scanner sym (committed scanner lx' sym)).
  { intros lx' (T1 & T2 & T3). cbn in T1, T2, T3.
    unfold commits_abc, token_text, end_position.
    cbn [returned lexer_after scanner_after committed set_result_symbol
         result_symbol token_end token_start input].
    rewrite T1, T2, T3. repeat split. }
  assert (Hraw : exists lx',
    scan_raw valid_symbols scanner lx = Some (commit scanner lx' sym)
    /\ commits_abc scanner sym (committed scanner lx' sym)).
  { cbn in Hin.
    destruct Hin as [E|[E|[E|[E|[]]]]]; injection E as <- <- <-;
      unfold script_content, style_content, title_content, textarea_content;
      match goal with
      | |- context [raw_content ?s ?t ?n ?lo ?up _ _ _] =>
          destruct (raw_content_abc s t lo up valid_symbols scanner variant
                      (str ">rest") Hvar Hv) as [lx' [E T]];
          change (Z.of_nat (length t)) with n in E;
          exists lx'; split; [exact E | apply Hfinal, T]
      end. }
  destruct Hraw as (lx' & Hraw & Habc).
  split; [exists (committed scanner lx' sym); split; [exact Hraw | exact Habc]|].
  intros Hearlier Hat Htext.
  exists (committed scanner lx' sym). split; [|exact Habc].
  assert (Hla : lookahead lx = ch "a") by reflexivity.
  assert (Hw : iswspace (lookahead lx) = false) by (rewrite Hla; reflexivity).
  unfold tree_sitter_razor_external_scanner_scan, razor_scan, razor_families.
  cbn [run_families].
  rewrite text_with_literal_at_off, html_text_content_off by assumption.
  rewrite csharp_start_passes by char_neq Hla.
  rewrite razor_block_open_passes by (auto; char_neq Hla).
  rewrite csharp_context_close_passes
    by (auto; rewrite Hla; intros [[_ E]|[_ E]]; vm_compute in E; discriminate).
  rewrite csharp_comment_passes by char_neq Hla.
  rewrite csharp_preproc_passes by char_neq Hla.
  cbn in Hin.
  destruct Hin as [E|[E|[E|[E|[]]]]]; injection E as <- <- <-;
    unfold script_content, style_content, title_content, textarea_content
      in Hraw |- *;
    repeat (rewrite raw_content_off
              by (apply Hearlier; [cbn; tauto | reflexivity]));
    rewrite Hraw; reflexivity.
Qed.

Lemma raw_content_stops_before_closing_tag_witness :
  In (TEXTAREA_CONTENT, str "textarea", @textarea_content Probe.scanner)
     raw_scanners
  /\ case_variant (str "textarea") (str "TextArea")
  /\ only [TEXTAREA_CONTENT] TEXTAREA_CONTENT = true
  /\ (exists r,
         textarea_content (only [TEXTAREA_CONTENT]) (Probe.razor [])
           (start (str "abc" ++ str "</" ++ str "TextArea" ++ str ">rest"))
         = Some (Return r)
         /\ commits_abc (Probe.razor []) TEXTAREA_CONTENT r)
  /\ (exists r,
         tree_sitter_razor_external_scanner_scan (Probe.razor [])
           (start (str "abc" ++ str "</" ++ str "TextArea" ++ str ">rest"))
           (only [TEXTAREA_CONTENT]) = Some r
         /\ commits_abc (Probe.razor []) TEXTAREA_CONTENT r).
Proof.
  assert (Hin : In (TEXTAREA_CONTENT, str "textarea",
                    @textarea_content Probe.scanner) raw_scanners)
    by (cbn; tauto).
  assert (Hvar : case_variant (str "textarea") (str "TextArea"))
    by (repeat constructor; (left; reflexivity) || (right; reflexivity)).
  assert (Hearlier : forall k, In k (map fst raw_kinds) ->
                               k < TEXTAREA_CONTENT ->
                               only [TEXTAREA_CONTENT] k = false).
  { intros k Hk Hlt. cbn in Hk.
    destruct Hk as [<-|[<-|[<-|[<-|[]]]]]; try reflexivity.
    vm_compute in Hlt. discriminate Hlt. }
  split; [exact Hin|]. split; [exact Hvar|]. split; [reflexivity|].
  destruct (raw_content_stops_before_closing_tag (Probe.razor [])
              (only [TEXTAREA_CONTENT]) TEXTAREA_CONTENT (str "textarea")
              textarea_content (str "TextArea") Hin Hvar eq_refl)
    as [Hscanner Hscan].
  split; [exact Hscanner|].
  exact (Hscan Hearlier eq_refl eq_refl).
Defined.

(** ** Serialization *)

Lemma u32_small x : 0 <= x < 2 ^ 32 -> u32 x = x.
Proof. intros H. unfold u32. now apply Z.mod_small. Qed.

Lemma to_char_small x : 0 <= x < 256 -> to_char x = x.
Proof. intros H. unfold to_char. now apply Z.mod_small. Qed.

Lemma buffer_at_app_l blob tail i :
  (i < length blob)%nat ->
  buffer_at (blob ++ tail) (Z.of_nat i) = buffer_at blob (Z.of_nat i).
Proof.
  intros H. unfold buffer_at. rewrite Nat2Z.id. now rewrite app_nth1.
Qed.

Lemma buffer_at_app_r blob tail i :
  buffer_at (blob ++ tail) (Z.of_nat (length blob) + Z.of_nat i)
  = to_char (nth i tail 0).
Proof.
  unfold buffer_at. rewrite <- Nat2Z.inj_add, Nat2Z.id.
  rewrite app_nth2 by lia. f_equal. f_equal. lia.
Qed.

Lemma read_back (blob : list Z) (x : Z) (l : list Z) :
  Forall (fun t => 0 <= t < 256) l ->
  map (fun k => buffer_at (blob ++ x :: map to_char l)
                          (Z.of_nat (length blob) + 1 + Z.of_nat k))
      (seq 0 (length l)) = l.
Proof.
  intros Hbytes. apply nth_ext with (d := 0) (d' := 0).
  - now rewrite length_map, length_seq.
  - intros n Hn. rewrite length_map, length_seq in Hn.
    rewrite (nth_indep _ 0 (buffer_at (blob ++ x :: map to_char l)
                              (Z.of_nat (length blob) + 1 + Z.of_nat 0)))
      by (now rewrite length_map, length_seq).
    rewrite (map_nth (fun k => buffer_at (blob ++ x :: map to_char l)
                          (Z.of_nat (length blob) + 1 + Z.of_nat k))).
    rewrite seq_nth by exact Hn. cbn [Nat.add].
    replace (Z.of_nat (length blob) + 1 + Z.of_nat n)
      with (Z.of_nat (length blob) + Z.of_nat (S n)) by lia.
    rewrite buffer_at_app_r. cbn [nth].
    rewrite (nth_indep _ 0 (to_char 0)) by (now rewrite length_map).
    rewrite map_nth.
    assert (Hb : 0 <= nth n l 0 < 256).
    { rewrite Forall_forall in Hbytes. apply Hbytes. now apply nth_In. }
    rewrite (to_char_small (nth n l 0)) by exact Hb.
    now apply to_char_small.
Qed.

Section SerializerFacts.

Context {CS : CSharpScanner}.
Variable capacity : Z.

(** C8: serialize returns zero when the sub-scanner blob, the depth byte
    and one byte for each stack element do not fit in the host's buffer,
    and otherwise writes and returns exactly blob size + 1 + stack depth
    bytes (the sum being in the range of [unsigned]). *)
Theorem serialize_length (scanner : RazorScanner) :
  let csharp_size :=
    Z.of_nat (length (tree_sitter_c_sharp_external_scanner_serialize
                        (csharp_scanner scanner))) in
  let depth := Z.of_nat (length (context_stack scanner)) in
  let result := tree_sitter_razor_external_scanner_serialize capacity scanner in
  csharp_size + 1 + depth < 2 ^ 32 ->
  (csharp_size + 1 + depth > capacity -> snd result = 0)
  /\ (csharp_size + 1 + depth <= capacity ->
      snd result = csharp_size + 1 + depth
      /\ Z.of_nat (length (fst result)) = csharp_size + 1 + depth).
Proof.
  cbv zeta. intros Hrange.
  unfold tree_sitter_razor_external_scanner_serialize.
  set (blob := tree_sitter_c_sharp_external_scanner_serialize _) in *.
  set (stack := context_stack scanner) in *.
  pose proof (Nat2Z.is_nonneg (length blob)).
  pose proof (Nat2Z.is_nonneg (length stack)).
  rewrite !(u32_small (Z.of_nat (length blob))) by lia.
  rewrite !(u32_small (Z.of_nat (length stack))) by lia.
  rewrite (u32_small (1 + _)) by lia.
  rewrite !u32_small by lia.
  split; intros H1.
  - destruct (Z.gtb_spec (Z.of_nat (length blob) + (1 + Z.of_nat (length stack)))
                capacity); [reflexivity|lia].
  - destruct (Z.gtb_spec (Z.of_nat (length blob) + (1 + Z.of_nat (length stack)))
                capacity); [lia|].
    cbn [fst snd]. split; [reflexivity|].
    rewrite length_app. cbn [length]. rewrite length_map. lia.
Qed.

(** C7, amended: a state whose stack is at most 255 deep and whose
    serialization fits in the host's buffer comes back from serialize
    followed by deserialize with the same mode stack and the same
    sub-scanner state, whatever instance it is restored into.  The
    sub-scanner's blob has the layout deserialize relies on (its second
    byte [N] and [2 + 4 * N] bytes in all), and the sub-scanner restores
    its own state from its blob. *)
Theorem round_trip_restores (into scanner : RazorScanner) :
  let blob := tree_sitter_c_sharp_external_scanner_serialize
                (csharp_scanner scanner) in
  let stack := context_stack scanner in
  Z.of_nat (length blob) = 2 + buffer_at blob 1 * 4 ->
  (forall cs0 tail,
      tree_sitter_c_sharp_external_scanner_deserialize
        cs0 (blob ++ tail) (Z.of_nat (length blob)) = csharp_scanner scanner) ->
  Forall (fun t => 0 <= t < 256) stack ->
  (length stack <= 255)%nat ->
  Z.of_nat (length blob) + 1 + Z.of_nat (length stack) <= capacity ->
  round_trip capacity into scanner = scanner.
Proof.
  cbv zeta. intros Hlayout Hsub Hbytes Hdepth Hfit.
  unfold round_trip, tree_sitter_razor_external_scanner_serialize.
  set (blob := tree_sitter_c_sharp_external_scanner_serialize _) in *.
  destruct scanner as [cs stack]. cbn [context_stack csharp_scanner] in *.
  assert (Hbyte : 0 <= buffer_at blob 1 < 256)
    by (unfold buffer_at, to_char; apply Z.mod_pos_bound; lia).
  assert (Hlen : (2 <= length blob)%nat) by lia.
  assert (Hsmall : Z.of_nat (length blob) + 1 + Z.of_nat (length stack) < 2 ^ 32)
    by (change (2 ^ 32) with 4294967296; lia).
  rewrite !(u32_small (Z.of_nat (length blob))) by lia.
  rewrite !(u32_small (Z.of_nat (length stack))) by lia.
  rewrite (u32_small (1 + _)) by lia.
  rewrite !u32_small by lia.
  destruct (Z.gtb_spec (Z.of_nat (length blob) + (1 + Z.of_nat (length stack)))
              capacity) as [Hover|_]; [lia|].
  unfold tree_sitter_razor_external_scanner_deserialize.
  destruct (Z.eqb_spec (Z.of_nat (length blob) + 1 + Z.of_nat (length stack)) 0)
    as [E|_]; [lia|].
  rewrite (buffer_at_app_l blob _ 1) by lia.
  change (Z.of_nat 1) with 1. rewrite <- Hlayout.
  destruct (Z.gtb_spec (Z.of_nat (length blob) + 1 + Z.of_nat (length stack))
              (Z.of_nat (length blob))) as [_|Hle]; [|lia].
  rewrite Hsub. f_equal. unfold array_extend. cbn [app].
  replace (Z.of_nat (length blob)) with (Z.of_nat (length blob) + Z.of_nat 0)
    at 1 by (cbn; lia).
  rewrite buffer_at_app_r. cbn [nth].
  rewrite !to_char_small by (unfold to_char; try apply Z.mod_pos_bound; lia).
  rewrite Nat2Z.id. now apply read_back.
Qed.

End SerializerFacts.


(** C7 as stated fails: with 255 interpolations open in the sub-scanner
    and two regions on the mode stack, the state does not fit in a buffer of
    1024 bytes; serialize returns 0 and deserialize restores an empty
    stack. *)
Lemma round_trip_loses_stack_on_overflow :
  let scanner := SpecCSharp.razor deep_interpolations
                   [CONTEXT_CSHARP_BRACE; CONTEXT_CSHARP_BRACE] in
  (length (context_stack scanner) <= 255)%nat
  /\ snd (tree_sitter_razor_external_scanner_serialize 1024 scanner) = 0
  /\ context_stack (round_trip 1024 scanner scanner) = []
  /\ context_stack (round_trip 1024 scanner scanner) <> context_stack scanner.
Proof.
  cbv zeta. split; [cbn; lia|]. split; [vm_compute; reflexivity|].
  assert (E : context_stack
                (round_trip 1024
                   (SpecCSharp.razor deep_interpolations
                      [CONTEXT_CSHARP_BRACE; CONTEXT_CSHARP_BRACE])
                   (SpecCSharp.razor deep_interpolations
                      [CONTEXT_CSHARP_BRACE; CONTEXT_CSHARP_BRACE])) = [])
    by (vm_compute; reflexivity).
  split; [exact E|]. rewrite E. discriminate.
Qed.


Lemma serialize_length_witness :
  10 + 1 + 3 < 2 ^ 32
  /\ (10 + 1 + 3 > 1024 ->
      snd (tree_sitter_razor_external_scanner_serialize 1024 nested_scanner) = 0)
  /\ (10 + 1 + 3 <= 1024 ->
      snd (tree_sitter_razor_external_scanner_serialize 1024 nested_scanner)
      = 10 + 1 + 3
      /\ Z.of_nat (length (fst (tree_sitter_razor_external_scanner_serialize
                                  1024 nested_scanner))) = 10 + 1 + 3).
Proof.
  split; [reflexivity|].
  apply (serialize_length 1024 nested_scanner). reflexivity.
Defined.

Lemma round_trip_restores_witness :
  let blob := SpecCSharp.serialize two_interpolations in
  Z.of_nat (length blob) = 2 + buffer_at blob 1 * 4
  /\ (forall cs0 tail,
         SpecCSharp.deserialize cs0 (blob ++ tail) (Z.of_nat (length blob))
         = two_interpolations)
  /\ Forall (fun t => 0 <= t < 256) (context_stack nested_scanner)
  /\ (length (context_stack nested_scanner) <= 255)%nat
  /\ Z.of_nat (length blob) + 1
     + Z.of_nat (length (context_stack nested_scanner)) <= 1024
  /\ round_trip 1024 (@tree_sitter_razor_external_scanner_create SpecCSharp.scanner)
       nested_scanner = nested_scanner.
Proof.
  cbv zeta.
  assert (H1 : Z.of_nat (length (SpecCSharp.serialize two_interpolations))
               = 2 + buffer_at (SpecCSharp.serialize two_interpolations) 1 * 4)
    by reflexivity.
  assert (H2 : forall cs0 tail,
             SpecCSharp.deserialize cs0
               (SpecCSharp.serialize two_interpolations ++ tail)
               (Z.of_nat (length (SpecCSharp.serialize two_interpolations)))
             = two_interpolations)
    by (intros cs0 tail; reflexivity).
  assert (H3 : Forall (fun t => 0 <= t < 256) (context_stack nested_scanner))
    by (repeat constructor; cbv; discriminate).
  assert (H4 : (length (context_stack nested_scanner) <= 255)%nat)
    by (cbn; lia).
  assert (H5 : Z.of_nat (length (SpecCSharp.serialize two_interpolations)) + 1
               + Z.of_nat (length (context_stack nested_scanner)) <= 1024)
    by (cbv; discriminate).
  repeat (split; [assumption|]).
  exact (round_trip_restores 1024
           (@tree_sitter_razor_external_scanner_create SpecCSharp.scanner)
           nested_scanner H1 H2 H3 H4 H5).
Defined.

(** ** Delegation to the sub-scanner *)



(** ** Markup text and the continuation keywords *)

(** The markup-text family on a given text, for the admissible sets and
    scanners under which it is the family that runs. *)
Lemma markup_text_runs {CS : CSharpScanner} scanner valid_symbols lx :
  valid_symbols HTML_TEXT_CONTENT = true ->
  valid_symbols TEXT_WITH_LITERAL_AT = false ->
  context_stack scanner = [] ->
  forall s,
    loop (fuel_for lx) html_text_body
         {| html_lexer := lx; has_content := false;
            found_keyword := false; at_line_start := true |} = Some s ->
    has_content s || found_keyword s = true ->
    razor_scan valid_symbols scanner lx
    = Some (if has_content s
            then commit scanner (html_lexer s) HTML_TEXT_CONTENT
            else decline scanner (html_lexer s)).
Proof.
  intros Hv Hat Hempty s Hloop Hs.
  unfold razor_scan, razor_families. cbn [run_families].
  rewrite text_with_literal_at_off by (now rewrite Hat).
  unfold html_text_content, in_csharp_context. rewrite Hv, Hempty. cbn [length].
  change (negb (0 <? Z.of_nat 0)) with true. cbn [andb]. rewrite Hloop.
  destruct (has_content s); [reflexivity|].
  cbn [orb] in Hs. now rewrite Hs.
Qed.

(** C4 as stated fails on its second input: in "x else foo" the [else] is
    not at the start of a line, so the keyword check is not made and the
    token covers the whole text, not "x " alone. *)
Lemma markup_text_runs_over_midline_else :
  exists r,
    tree_sitter_razor_external_scanner_scan (Probe.razor [])
      (start (str "x else foo")) (only [HTML_TEXT_CONTENT]) = Some r
    /\ returned r = true
    /\ result_symbol (lexer_after r) = HTML_TEXT_CONTENT
    /\ token_text (lexer_after r) = str "x else foo"
    /\ token_text (lexer_after r) <> str "x ".
Proof.
  eexists. split; [vm_compute; reflexivity|].
  repeat split; try reflexivity. vm_compute. discriminate.
Qed.

(** C4, amended: with HTML_TEXT_CONTENT admissible, TEXT_WITH_LITERAL_AT
    not, and the mode stack empty, on "else foo" the scan declines by
    itself, nothing marked, so that a keyword rule can claim [else]; on
    "x else foo" it commits HTML_TEXT_CONTENT over the whole text, the
    [else] standing in mid-line; where the [else] starts a line, as in "x",
    newline, "else foo", the token covers "x" and the newline only. *)
Theorem markup_text_holds_back_keyword_at_line_start {CS : CSharpScanner}
    scanner valid_symbols :
  valid_symbols HTML_TEXT_CONTENT = true ->
  valid_symbols TEXT_WITH_LITERAL_AT = false ->
  context_stack scanner = [] ->
  (exists r,
      tree_sitter_razor_external_scanner_scan scanner (start (str "else foo"))
        valid_symbols = Some r
      /\ razor_scan valid_symbols scanner (start (str "else foo"))
         = Some (Return r)
      /\ returned r = false
      /\ scanner_after r = scanner
      /\ end_position (lexer_after r) = 0%nat)
  /\ (exists r,
         tree_sitter_razor_external_scanner_scan scanner
           (start (str "x else foo")) valid_symbols = Some r
         /\ returned r = true
         /\ result_symbol (lexer_after r) = HTML_TEXT_CONTENT
         /\ token_text (lexer_after r) = str "x else foo"
         /\ scanner_after r = scanner)
  /\ (exists r,
         tree_sitter_razor_external_scanner_scan scanner
           (start (str "x" ++ [LF] ++ str "else foo")) valid_symbols = Some r
         /\ returned r = true
         /\ result_symbol (lexer_after r) = HTML_TEXT_CONTENT
         /\ token_text (lexer_after r) = str "x" ++ [LF]
         /\ scanner_after r = scanner).
Proof.
  intros Hv Hat Hempty.
  unfold tree_sitter_razor_external_scanner_scan.
  repeat split.
  - erewrite markup_text_runs; eauto; [|vm_compute; reflexivity|reflexivity].
    cbn [has_content]. eexists. repeat split.
  - erewrite markup_text_runs; eauto; [|vm_compute; reflexivity|reflexivity].
    cbn [has_content]. eexists. repeat split.
  - erewrite markup_text_runs; eauto; [|vm_compute; reflexivity|reflexivity].
    cbn [has_content]. eexists. repeat split.
Qed.

Lemma markup_text_holds_back_keyword_at_line_start_witness :
  only [HTML_TEXT_CONTENT] HTML_TEXT_CONTENT = true
  /\ only [HTML_TEXT_CONTENT] TEXT_WITH_LITERAL_AT = false
  /\ context_stack (Probe.razor []) = []
  /\ (exists r,
         tree_sitter_razor_external_scanner_scan (Probe.razor [])
           (start (str "else foo")) (only [HTML_TEXT_CONTENT]) = Some r
         /\ razor_scan (only [HTML_TEXT_CONTENT]) (Probe.razor [])
              (start (str "else foo")) = Some (Return r)
         /\ returned r = false
         /\ scanner_after r = Probe.razor []
         /\ end_position (lexer_after r) = 0%nat)
  /\ (exists r,
         tree_sitter_razor_external_scanner_scan (Probe.razor [])
           (start (str "x else foo")) (only [HTML_TEXT_CONTENT]) = Some r
         /\ returned r = true
         /\ result_symbol (lexer_after r) = HTML_TEXT_CONTENT
         /\ token_text (lexer_after r) = str "x else foo"
         /\ scanner_after r = Probe.razor [])
  /\ (exists r,
         tree_sitter_razor_external_scanner_scan (Probe.razor [])
           (start (str "x" ++ [LF] ++ str "else foo"))
           (only [HTML_TEXT_CONTENT]) = Some r
         /\ returned r = true
         /\ result_symbol (lexer_after r) = HTML_TEXT_CONTENT
         /\ token_text (lexer_after r) = str "x" ++ [LF]
         /\ scanner_after r = Probe.razor []).
Proof.
  split; [reflexivity|]. split; [reflexivity|]. split; [reflexivity|].
  exact (markup_text_holds_back_keyword_at_line_start (Probe.razor [])
           (only [HTML_TEXT_CONTENT]) eq_refl eq_refl eq_refl).
Defined.

(** ** Skipping whitespace *)

Lemma rest_of_input_nil lx :
  rest_of_input lx = [] -> eof lx = true.
Proof.
  unfold rest_of_input, eof. intros H. apply Nat.leb_le.
  apply (f_equal (@length Z)) in H. rewrite length_skipn in H. cbn in H. lia.
Qed.

Lemma next_non_whitespace_here lx :
  iswspace (lookahead lx) = false -> next_non_whitespace lx = lookahead lx.
Proof.
  intros H. unfold next_non_whitespace.
  destruct (rest_of_input lx) as [|c l] eqn:E.
  - apply rest_of_input_nil in E. now rewrite lookahead_eof.
  - apply rest_of_input_cons in E. destruct E as (<- & _ & _).
    cbn. now rewrite H.
Qed.

Lemma next_non_whitespace_skip lx :
  iswspace (lookahead lx) = true ->
  next_non_whitespace (razor_skip lx) = next_non_whitespace lx.
Proof.
  intros H. unfold next_non_whitespace.
  destruct (rest_of_input lx) as [|c l] eqn:E.
  - apply rest_of_input_nil, lookahead_eof in E. rewrite E in H. discriminate.
  - apply rest_of_input_cons in E. destruct E as (<- & _ & Hadv).
    unfold razor_skip. rewrite Hadv. cbn. now rewrite H.
Qed.

(** Skipping ends on the first character that is not whitespace. *)
Lemma skip_whitespace_finds lx lx' :
  skip_whitespace lx = Some lx' ->
  lookahead lx' = next_non_whitespace lx
  /\ next_non_whitespace lx' = next_non_whitespace lx
  /\ iswspace (lookahead lx') = false.
Proof.
  intros H.
  assert (Hw : iswspace (lookahead lx') = false).
  { apply loop_exit in H. destruct H as [s0 H].
    unfold skip_whitespace_body in H.
    destruct (iswspace (lookahead s0)) eqn:E; [discriminate|].
    injection H as <-. exact E. }
  assert (Hn : next_non_whitespace lx' = next_non_whitespace lx).
  { revert H. unfold skip_whitespace.
    apply (loop_relates skip_whitespace_body
             (fun a b => next_non_whitespace b = next_non_whitespace a));
      [reflexivity | intros; congruence | |];
      intros s s' Hb; unfold skip_whitespace_body in Hb;
      destruct (iswspace (lookahead s)) eqn:E; try discriminate;
      injection Hb as <-; [now apply next_non_whitespace_skip | reflexivity]. }
  repeat split; auto. rewrite <- Hn. symmetry.
  now apply next_non_whitespace_here.
Qed.

Lemma skip_whitespace_again lx lx' :
  skip_whitespace lx = Some lx' -> skip_whitespace lx' = Some lx'.
Proof.
  intros H. apply skip_whitespace_finds in H. now apply skip_whitespace_none.
Qed.

Lemma skip_whitespace_step lx :
  iswspace (lookahead lx) = true ->
  skip_whitespace lx = skip_whitespace (razor_skip lx).
Proof.
  intros H. unfold skip_whitespace at 1.
  pose proof (guard_not_eof iswspace lx eq_refl H) as E.
  assert (Hf : fuel_for lx = S (fuel_for (razor_skip lx))).
  { unfold fuel_for, razor_skip, advance, remaining. rewrite E. cbn.
    apply eof_false_remaining in E. unfold remaining in E. lia. }
  rewrite Hf. apply loop_continue. unfold skip_whitespace_body. now rewrite H.
Qed.

(** Skipping over a run of whitespace: the cursor lands on the character
    after it, where the token now starts. *)
Lemma skip_whitespace_over ws : forall lx c rest,
  Forall (fun w => iswspace w = true) ws ->
  iswspace c = false ->
  rest_of_input lx = ws ++ c :: rest ->
  token_start lx = position lx ->
  exists lx',
    skip_whitespace lx = Some lx'
    /\ rest_of_input lx' = c :: rest
    /\ token_start lx' = position lx'
    /\ token_end lx' = token_end lx.
Proof.
  induction ws as [|w ws IH]; intros lx c rest Hws Hc Hrest Hstart.
  - exists lx. cbn in Hrest.
    destruct (rest_of_input_cons _ _ _ Hrest) as (Hla & _ & _).
    rewrite skip_whitespace_none by (now rewrite Hla). auto.
  - inversion Hws as [|? ? Hw Hws']; subst.
    cbn [app] in Hrest.
    destruct (rest_of_input_cons _ _ _ Hrest) as (Hla & E & Hadv).
    rewrite skip_whitespace_step by (now rewrite Hla).
    destruct (IH (razor_skip lx) c rest Hws' Hc (Hadv true)) as (lx' & H1 & H2 & H3 & H4).
    { unfold razor_skip, advance. rewrite E. reflexivity. }
    exists lx'. repeat split; auto.
    rewrite H4. unfold razor_skip, advance. now rewrite E.
Qed.

(** ** Opening and closing a code region *)

Section Regions.

Context {CS : CSharpScanner}.

Lemma in_csharp_context_app scanner below top :
  context_stack scanner = below ++ [top] -> in_csharp_context scanner = true.
Proof.
  intros H. unfold in_csharp_context. rewrite H, length_app. cbn [length].
  apply Z.ltb_lt. lia.
Qed.

Lemma whitespace_or_closer lx ws c rest :
  Forall (fun w => iswspace w = true) ws ->
  rest_of_input lx = ws ++ c :: rest ->
  lookahead lx = c \/ iswspace (lookahead lx) = true.
Proof.
  intros Hws Hrest. destruct ws as [|w ws]; cbn [app] in Hrest;
    destruct (rest_of_input_cons _ _ _ Hrest) as (Hla & _ & _).
  - now left.
  - right. rewrite Hla. now inversion Hws.
Qed.

Lemma closer_chars top c :
  closes top c -> c = ch "}" \/ c = ch ")".
Proof. intros [[_ ->]|[_ ->]]; auto. Qed.

(** The closer that matches the top of the stack, after any whitespace,
    is committed as CSHARP_CONTEXT_CLOSE and pops the stack. *)
Lemma matching_closer_pops scanner valid_symbols lx below top ws c rest :
  valid_symbols CSHARP_CONTEXT_CLOSE = true ->
  context_stack scanner = below ++ [top] ->
  closes top c ->
  Forall (fun w => iswspace w = true) ws ->
  rest_of_input lx = ws ++ c :: rest ->
  token_start lx = position lx ->
  token_end lx = None ->
  exists r,
    tree_sitter_razor_external_scanner_scan scanner lx valid_symbols = Some r
    /\ returned r = true
    /\ result_symbol (lexer_after r) = CSHARP_CONTEXT_CLOSE
    /\ context_stack (scanner_after r) = below
    /\ token_text (lexer_after r) = [c].
Proof.
  intros Hv Hstack Hcl Hws Hrest Hstart Hend.
  pose proof (in_csharp_context_app _ _ _ Hstack) as Hctx.
  pose proof (closer_chars _ _ Hcl) as Hc.
  assert (Hcw : iswspace c = false) by (destruct Hc as [-> | ->]; reflexivity).
  destruct (skip_whitespace_over ws lx c rest Hws Hcw Hrest Hstart)
    as (lx' & Hskip & Hrest' & Hstart' & Hend').
  destruct (rest_of_input_cons _ _ _ Hrest') as (Hla' & Heof' & _).
  assert (Hfirst : forall x, iswspace x = false -> x <> ch "}" -> x <> ch ")" ->
                             lookahead lx <> x).
  { intros x Hx H1 H2 E.
    destruct (whitespace_or_closer _ _ _ _ Hws Hrest) as [Hl|Hl];
      rewrite E in Hl; [destruct Hc; congruence | congruence]. }
  unfold tree_sitter_razor_external_scanner_scan, razor_scan, razor_families.
  cbn [run_families].
  rewrite text_with_literal_at_off, html_text_content_off
    by (rewrite Hctx; apply andb_false_r).
  rewrite csharp_start_passes by (apply Hfirst; [reflexivity|discriminate..]).
  assert (Hopen : razor_block_open valid_symbols scanner lx = Some (Next lx)
                  \/ razor_block_open valid_symbols scanner lx = Some (Next lx')).
  { unfold razor_block_open. destruct (valid_symbols RAZOR_BLOCK_OPEN); auto.
    rewrite Hskip, Hla'. right.
    destruct Hc as [-> | ->]; reflexivity. }
  assert (Hclose : forall l, l = lx \/ l = lx' ->
            csharp_context_close valid_symbols scanner l
            = Some (commit (array_pop scanner) (razor_advance lx')
                           CSHARP_CONTEXT_CLOSE)).
  { intros l Hl. unfold csharp_context_close.
    fold (in_csharp_context scanner). rewrite Hv, Hctx. cbn [andb].
    assert (Hs : skip_whitespace l = Some lx')
      by (destruct Hl as [-> | ->];
          [exact Hskip | now apply skip_whitespace_again in Hskip]).
    rewrite Hs, Hla', Hstack, last_last.
    now rewrite (closes_test _ _ Hcl). }
  assert (Hresult :
    exists r,
      Some (committed (array_pop scanner) (razor_advance lx')
                      CSHARP_CONTEXT_CLOSE) = Some r
      /\ returned r = true
      /\ result_symbol (lexer_after r) = CSHARP_CONTEXT_CLOSE
      /\ context_stack (scanner_after r) = below
      /\ token_text (lexer_after r) = [c]).
  { eexists. split; [reflexivity|].
    cbn [returned lexer_after scanner_after committed set_result_symbol
         result_symbol array_pop context_stack].
    repeat split.
    - rewrite Hstack. apply removelast_last.
    - unfold token_text, end_position, razor_advance, advance,
        set_result_symbol.
      rewrite Heof'. cbn [token_end token_start input position].
      rewrite Hend', Hend, Hstart'.
      replace (S (position lx') - position lx')%nat with 1%nat by lia.
      fold (rest_of_input lx'). now rewrite Hrest'. }
  destruct Hopen as [-> | ->]; rewrite Hclose by auto; exact Hresult.
Qed.

(** [@] followed by the opener of an admissible kind commits that kind
    and pushes its tag. *)
Lemma at_opener_pushes scanner valid_symbols opener sym tag rest :
  (opener = ch "{" /\ sym = CSHARP_CODE_BLOCK_START
   /\ tag = CONTEXT_CSHARP_BRACE)
  \/ (opener = ch "(" /\ sym = CSHARP_EXPLICIT_EXPR_START
      /\ tag = CONTEXT_CSHARP_PAREN) ->
  valid_symbols sym = true ->
  exists r,
    tree_sitter_razor_external_scanner_scan scanner
      (start (ch "@" :: opener :: rest)) valid_symbols = Some r
    /\ returned r = true
    /\ result_symbol (lexer_after r) = sym
    /\ context_stack (scanner_after r) = context_stack scanner ++ [tag]
    /\ token_text (lexer_after r) = [ch "@"; opener].
Proof.
  intros Hkind Hv.
  unfold tree_sitter_razor_external_scanner_scan, razor_scan, razor_families.
  cbn [run_families].
  rewrite text_with_literal_at_stops, html_text_content_stops
    by (right; reflexivity).
  unfold csharp_start.
  change (lookahead (start (ch "@" :: opener :: rest)) =? ch "@") with true.
  change (lookahead (razor_advance (start (ch "@" :: opener :: rest))))
    with opener.
  destruct Hkind as [(-> & -> & ->)|(-> & -> & ->)]; rewrite Hv.
  - cbn [orb andb]. change (ch "{" =? ch "{") with true. cbv iota.
    eexists. repeat split.
  - rewrite orb_true_r. cbn [andb].
    change (ch "(" =? ch "{") with false. rewrite andb_false_r.
    change (ch "(" =? ch "(") with true. cbv iota.
    eexists. repeat split.
Qed.

End Regions.

(** C2: with CSHARP_CODE_BLOCK_START admissible, input beginning with "@{"
    commits that kind and pushes exactly one brace tag; with
    CSHARP_EXPLICIT_EXPR_START admissible, "@(" commits that kind and pushes
    exactly one parenthesis tag; and with CSHARP_CONTEXT_CLOSE admissible,
    the closer that matches the tag on top, possibly after whitespace,
    commits CSHARP_CONTEXT_CLOSE over the closer alone and pops that tag,
    which at depth 1 ([below] empty) leaves the stack empty. *)
Theorem regions_open_and_close {CS : CSharpScanner}
    scanner valid_symbols rest :
  (valid_symbols CSHARP_CODE_BLOCK_START = true ->
   exists r,
     tree_sitter_razor_external_scanner_scan scanner
       (start (str "@{" ++ rest)) valid_symbols = Some r
     /\ returned r = true
     /\ result_symbol (lexer_after r) = CSHARP_CODE_BLOCK_START
     /\ context_stack (scanner_after r)
        = context_stack scanner ++ [CONTEXT_CSHARP_BRACE]
     /\ token_text (lexer_after r) = str "@{")
  /\ (valid_symbols CSHARP_EXPLICIT_EXPR_START = true ->
      exists r,
        tree_sitter_razor_external_scanner_scan scanner
          (start (str "@(" ++ rest)) valid_symbols = Some r
        /\ returned r = true
        /\ result_symbol (lexer_after r) = CSHARP_EXPLICIT_EXPR_START
        /\ context_stack (scanner_after r)
           = context_stack scanner ++ [CONTEXT_CSHARP_PAREN]
        /\ token_text (lexer_after r) = str "@(")
  /\ (forall lx below top ws c,
         valid_symbols CSHARP_CONTEXT_CLOSE = true ->
         context_stack scanner = below ++ [top] ->
         closes top c ->
         Forall (fun w => iswspace w = true) ws ->
         rest_of_input lx = ws ++ c :: rest ->
         token_start lx = position lx ->
         token_end lx = None ->
         exists r,
           tree_sitter_razor_external_scanner_scan scanner lx valid_symbols
           = Some r
           /\ returned r = true
           /\ result_symbol (lexer_after r) = CSHARP_CONTEXT_CLOSE
           /\ context_stack (scanner_after r) = below
           /\ token_text (lexer_after r) = [c]).
Proof.
  split; [|split].
  - intros Hv.
    apply (at_opener_pushes scanner valid_symbols (ch "{")
             CSHARP_CODE_BLOCK_START CONTEXT_CSHARP_BRACE rest); auto.
  - intros Hv.
    apply (at_opener_pushes scanner valid_symbols (ch "(")
             CSHARP_EXPLICIT_EXPR_START CONTEXT_CSHARP_PAREN rest); auto.
  - intros lx below top ws c. apply matching_closer_pops.
Qed.

Lemma regions_open_and_close_witness :
  (exists r,
      tree_sitter_razor_external_scanner_scan (Probe.razor [])
        (start (str "@{" ++ str " int x = 1; }"))
        (only [CSHARP_CODE_BLOCK_START; CSHARP_EXPLICIT_EXPR_START;
               CSHARP_CONTEXT_CLOSE]) = Some r
      /\ returned r = true
      /\ result_symbol (lexer_after r) = CSHARP_CODE_BLOCK_START
      /\ context_stack (scanner_after r) = [] ++ [CONTEXT_CSHARP_BRACE]
      /\ token_text (lexer_after r) = str "@{")
  /\ (exists r,
         tree_sitter_razor_external_scanner_scan (Probe.razor [])
           (start (str "@(" ++ str " int x = 1; }"))
           (only [CSHARP_CODE_BLOCK_START; CSHARP_EXPLICIT_EXPR_START;
                  CSHARP_CONTEXT_CLOSE]) = Some r
         /\ returned r = true
         /\ result_symbol (lexer_after r) = CSHARP_EXPLICIT_EXPR_START
         /\ context_stack (scanner_after r) = [] ++ [CONTEXT_CSHARP_PAREN]
         /\ token_text (lexer_after r) = str "@(")
  /\ (exists r,
         tree_sitter_razor_external_scanner_scan
           (Probe.razor [CONTEXT_CSHARP_BRACE])
           (start (str "  " ++ ch "}" :: str " int x = 1; }"))
           (only [CSHARP_CODE_BLOCK_START; CSHARP_EXPLICIT_EXPR_START;
                  CSHARP_CONTEXT_CLOSE]) = Some r
         /\ returned r = true
         /\ result_symbol (lexer_after r) = CSHARP_CONTEXT_CLOSE
         /\ context_stack (scanner_after r) = []
         /\ token_text (lexer_after r) = [ch "}"]).
Proof.
  pose proof (regions_open_and_close (Probe.razor [])
                (only [CSHARP_CODE_BLOCK_START; CSHARP_EXPLICIT_EXPR_START;
                       CSHARP_CONTEXT_CLOSE]) (str " int x = 1; }"))
    as (Hbrace & Hparen & _).
  pose proof (regions_open_and_close (Probe.razor [CONTEXT_CSHARP_BRACE])
                (only [CSHARP_CODE_BLOCK_START; CSHARP_EXPLICIT_EXPR_START;
                       CSHARP_CONTEXT_CLOSE]) (str " int x = 1; }"))
    as (_ & _ & Hclose).
  split; [apply Hbrace; reflexivity|].
  split; [apply Hparen; reflexivity|].
  apply (Hclose (start (str "  " ++ ch "}" :: str " int x = 1; }"))
           [] CONTEXT_CSHARP_BRACE (str "  ") (ch "}")).
  - reflexivity.
  - reflexivity.
  - left. split; reflexivity.
  - repeat constructor.
  - reflexivity.
  - reflexivity.
  - reflexivity.
Defined.

(** ** The closer and the top of the stack *)

Section Closers.

Context {CS : CSharpScanner}.
Variables (valid_symbols : Z -> bool) (scanner : RazorScanner).

Lemma lookahead_cases lx :
  iswspace (lookahead lx) = true \/ lookahead lx = next_non_whitespace lx.
Proof.
  destruct (iswspace (lookahead lx)) eqn:E; [now left|].
  right. symmetry. now apply next_non_whitespace_here.
Qed.

Lemma csharp_start_next lx lx' :
  csharp_start valid_symbols scanner lx = Some (Next lx') -> lx' = lx.
Proof.
  unfold csharp_start, commit, decline. intros H.
  break_ifs; try discriminate; congruence.
Qed.

Lemma csharp_start_return lx r :
  csharp_start valid_symbols scanner lx = Some (Return r) ->
  lookahead lx = ch "@".
Proof.
  unfold csharp_start. intros H.
  destruct (_ && (lookahead lx =? ch "@")) eqn:E; [|discriminate].
  apply andb_prop in E. destruct E as [_ E]. now apply Z.eqb_eq in E.
Qed.

Lemma razor_block_open_next lx lx' :
  razor_block_open valid_symbols scanner lx = Some (Next lx') ->
  lx' = lx \/ skip_whitespace lx = Some lx'.
Proof.
  unfold razor_block_open, commit. intros H.
  destruct (valid_symbols RAZOR_BLOCK_OPEN); [|left; now injection H].
  destruct (skip_whitespace lx) as [lx1|]; [|discriminate].
  destruct (lookahead lx1 =? ch "{"); [discriminate|].
  right. now injection H as ->.
Qed.

Lemma razor_block_open_return lx r :
  razor_block_open valid_symbols scanner lx = Some (Return r) ->
  next_non_whitespace lx = ch "{".
Proof.
  unfold razor_block_open. intros H.
  destruct (valid_symbols RAZOR_BLOCK_OPEN); [|discriminate].
  destruct (skip_whitespace lx) as [lx1|] eqn:E; [|discriminate].
  destruct (lookahead lx1 =? ch "{") eqn:L; [|discriminate].
  apply Z.eqb_eq in L. apply skip_whitespace_finds in E.
  destruct E as (E & _). congruence.
Qed.

Lemma csharp_context_close_next lx lx' :
  csharp_context_close valid_symbols scanner lx = Some (Next lx') ->
  lx' = lx \/ skip_whitespace lx = Some lx'.
Proof.
  unfold csharp_context_close, commit. intros H.
  destruct (_ && _); [|left; now injection H].
  destruct (skip_whitespace lx) as [lx1|]; [|discriminate].
  destruct (_ || _); [discriminate|].
  right. now injection H as ->.
Qed.

Lemma csharp_context_close_return lx r :
  csharp_context_close valid_symbols scanner lx = Some (Return r) ->
  valid_symbols CSHARP_CONTEXT_CLOSE = true
  /\ context_stack scanner <> []
  /\ closes (last (context_stack scanner) 0) (next_non_whitespace lx)
  /\ returned r = true
  /\ result_symbol (lexer_after r) = CSHARP_CONTEXT_CLOSE
  /\ context_stack (scanner_after r) = removelast (context_stack scanner).
Proof.
  unfold csharp_context_close. fold (in_csharp_context scanner). intros H.
  destruct (valid_symbols CSHARP_CONTEXT_CLOSE); [|discriminate].
  destruct (in_csharp_context scanner) eqn:Hc; [|discriminate].
  cbn [andb] in H. apply in_csharp_context_true in Hc.
  destruct (skip_whitespace lx) as [lx1|] eqn:E; [|discriminate].
  destruct (_ || _) eqn:T; [|discriminate].
  apply closes_of_test in T. apply skip_whitespace_finds in E.
  destruct E as (E & _). rewrite E in T.
  injection H as <-. repeat split; auto.
Qed.

(** A return of the dispatcher is the return of one of its families. *)
Lemma run_families_return_from fs : forall lx r,
  run_families fs valid_symbols scanner lx = Some (Return r) ->
  exists f lx0, In f fs /\ f valid_symbols scanner lx0 = Some (Return r).
Proof.
  induction fs as [|f fs IH]; intros lx r H; cbn in H; [discriminate|].
  destruct (f valid_symbols scanner lx) as [[r'|lx']|] eqn:E; try discriminate.
  - injection H as <-. exists f, lx. split; [now left | exact E].
  - destruct (IH _ _ H) as (g & lx0 & Hin & Hg).
    exists g, lx0. split; [now right | exact Hg].
Qed.

Lemma csharp_comment_leaves_scanner lx r :
  csharp_comment valid_symbols scanner lx = Some (Return r) ->
  scanner_after r = scanner
  /\ (returned r = true ->
      result_symbol (lexer_after r) <> CSHARP_CONTEXT_CLOSE).
Proof.
  unfold csharp_comment, commit, decline. intros H.
  break_ifs; try discriminate; subst r; cbn; split; auto;
    intros Hr; try discriminate Hr; intros E; vm_compute in E;
    discriminate E.
Qed.

Lemma csharp_preproc_leaves_scanner lx r :
  csharp_preproc valid_symbols scanner lx = Some (Return r) ->
  scanner_after r = scanner
  /\ (returned r = true ->
      result_symbol (lexer_after r) <> CSHARP_CONTEXT_CLOSE).
Proof.
  unfold csharp_preproc, commit. intros H.
  destruct (_ && _); [|discriminate].
  destruct (rest_of_line _); [|discriminate].
  injection H as <-. cbn. split; auto.
  intros _ E; vm_compute in E; discriminate E.
Qed.

Lemma raw_content_leaves_scanner sym tag len lower upper lx r :
  sym <> CSHARP_CONTEXT_CLOSE ->
  raw_content sym tag len lower upper valid_symbols scanner lx
  = Some (Return r) ->
  scanner_after r = scanner
  /\ (returned r = true ->
      result_symbol (lexer_after r) <> CSHARP_CONTEXT_CLOSE).
Proof.
  unfold raw_content, commit, decline. intros Hsym H.
  break_ifs; try discriminate; subst r; cbn; split; auto;
    intros Hr; try discriminate Hr; exact Hsym.
Qed.

(** The families after the mode transitions return without touching the
    scanner, and never with CSHARP_CONTEXT_CLOSE. *)
Lemma later_families_return lx r :
  run_families [csharp_comment; csharp_preproc; script_content; style_content;
                title_content; textarea_content] valid_symbols scanner lx
  = Some (Return r) ->
  scanner_after r = scanner
  /\ (returned r = true ->
      result_symbol (lexer_after r) <> CSHARP_CONTEXT_CLOSE).
Proof.
  intros H. apply run_families_return_from in H.
  destruct H as (f & lx0 & Hin & Hf). cbn in Hin.
  destruct Hin as [<-|[<-|[<-|[<-|[<-|[<-|[]]]]]]].
  - eapply csharp_comment_leaves_scanner, Hf.
  - eapply csharp_preproc_leaves_scanner, Hf.
  - eapply raw_content_leaves_scanner, Hf. discriminate.
  - eapply raw_content_leaves_scanner, Hf. discriminate.
  - eapply raw_content_leaves_scanner, Hf. discriminate.
  - eapply raw_content_leaves_scanner, Hf. discriminate.
Qed.

(** With no raw-content kind admissible, they let through a cursor that
    is neither on [/] nor on [#]. *)
Lemma later_families_pass lx :
  lookahead lx <> ch "/" -> lookahead lx <> ch "#" ->
  (forall k, In k (map fst raw_kinds) -> valid_symbols k = false) ->
  run_families [csharp_comment; csharp_preproc; script_content; style_content;
                title_content; textarea_content] valid_symbols scanner lx
  = Some (Next lx).
Proof.
  intros H1 H2 Hraw. cbn [run_families].
  rewrite csharp_comment_passes, csharp_preproc_passes by assumption.
  unfold script_content, style_content, title_content, textarea_content.
  rewrite !raw_content_off by (apply Hraw; cbn; tauto).
  reflexivity.
Qed.

Lemma csharp_start_grows lx r :
  csharp_start valid_symbols scanner lx = Some (Return r) ->
  (length (context_stack scanner)
   <= length (context_stack (scanner_after r)))%nat
  /\ (returned r = true ->
      result_symbol (lexer_after r) <> CSHARP_CONTEXT_CLOSE).
Proof.
  unfold csharp_start, commit, decline. intros H.
  break_ifs; try discriminate; subst r; cbn; rewrite ?length_app; cbn;
    split; try lia; intros Hr; try discriminate Hr; intros E;
    vm_compute in E; discriminate E.
Qed.

Lemma razor_block_open_grows lx r :
  razor_block_open valid_symbols scanner lx = Some (Return r) ->
  (length (context_stack scanner)
   <= length (context_stack (scanner_after r)))%nat
  /\ (returned r = true ->
      result_symbol (lexer_after r) <> CSHARP_CONTEXT_CLOSE).
Proof.
  unfold razor_block_open, commit. intros H.
  break_ifs; try discriminate; subst r; cbn; rewrite ?length_app; cbn;
    split; try lia; intros Hr; try discriminate Hr; intros E;
    vm_compute in E; discriminate E.
Qed.

(** With a region open, the scan ends in one of three ways: an opening
    family returns (on [@], or on [{] after whitespace), the closing
    family pops on a closer that matches the top, or the control reaches
    the later families with at most whitespace skipped. *)
Lemma scan_in_context lx fl :
  context_stack scanner <> [] ->
  razor_scan valid_symbols scanner lx = Some fl ->
  (exists r,
      fl = Return r
      /\ (lookahead lx = ch "@" \/ next_non_whitespace lx = ch "{")
      /\ (length (context_stack scanner)
          <= length (context_stack (scanner_after r)))%nat
      /\ (returned r = true ->
          result_symbol (lexer_after r) <> CSHARP_CONTEXT_CLOSE))
  \/ (exists r,
         fl = Return r
         /\ valid_symbols CSHARP_CONTEXT_CLOSE = true
         /\ closes (last (context_stack scanner) 0) (next_non_whitespace lx)
         /\ returned r = true
         /\ result_symbol (lexer_after r) = CSHARP_CONTEXT_CLOSE
         /\ context_stack (scanner_after r)
            = removelast (context_stack scanner))
  \/ (exists lx5,
         (lx5 = lx \/ skip_whitespace lx = Some lx5)
         /\ run_families [csharp_comment; csharp_preproc; script_content;
                          style_content; title_content; textarea_content]
              valid_symbols scanner lx5 = Some fl).
Proof.
  intros Hne H.
  assert (Hctx : in_csharp_context scanner = true).
  { unfold in_csharp_context. destruct (context_stack scanner);
      [contradiction|reflexivity]. }
  unfold razor_scan, razor_families in H. cbn [run_families] in H.
  rewrite text_with_literal_at_off, html_text_content_off in H
    by (rewrite Hctx; apply andb_false_r).
  destruct (csharp_start valid_symbols scanner lx) as [[r3|lx3]|] eqn:E3;
    try discriminate.
  { injection H as <-. left. exists r3.
    destruct (csharp_start_grows _ _ E3). apply csharp_start_return in E3.
    auto. }
  apply csharp_start_next in E3. subst lx3.
  destruct (razor_block_open valid_symbols scanner lx) as [[r4|lx4]|] eqn:E4;
    try discriminate.
  { injection H as <-. left. exists r4.
    destruct (razor_block_open_grows _ _ E4).
    apply razor_block_open_return in E4. auto. }
  apply razor_block_open_next in E4.
  assert (Hn4 : next_non_whitespace lx4 = next_non_whitespace lx).
  { destruct E4 as [-> | E4]; [reflexivity|].
    now apply skip_whitespace_finds in E4. }
  destruct (csharp_context_close valid_symbols scanner lx4)
    as [[r5|lx5]|] eqn:E5; try discriminate.
  { injection H as <-. right; left. exists r5.
    apply csharp_context_close_return in E5. rewrite Hn4 in E5. tauto. }
  apply csharp_context_close_next in E5.
  right; right. exists lx5. split; [|exact H].
  destruct E4 as [-> | E4]; [exact E5|].
  destruct E5 as [-> | E5]; [now right|].
  rewrite (skip_whitespace_again _ _ E4) in E5. injection E5 as <-.
  now right.
Qed.

End Closers.

(** C3 as stated fails in its last part: a closer that does not match the
    top tag is not popped, but it can still be consumed into a token; with
    SCRIPT_CONTENT admissible as well, a [)] met under a brace region is
    committed as raw content. *)
Lemma mismatched_closer_taken_as_raw_content :
  exists r,
    tree_sitter_razor_external_scanner_scan
      (Probe.razor [CONTEXT_CSHARP_BRACE]) (start (str ")"))
      (only [CSHARP_CONTEXT_CLOSE; SCRIPT_CONTENT]) = Some r
    /\ ~ closes CONTEXT_CSHARP_BRACE (ch ")")
    /\ returned r = true
    /\ result_symbol (lexer_after r) = SCRIPT_CONTENT
    /\ token_text (lexer_after r) = str ")"
    /\ context_stack (scanner_after r) = [CONTEXT_CSHARP_BRACE].
Proof.
  eexists. split; [vm_compute; reflexivity|].
  split; [intros [[_ E]|[E _]]; vm_compute in E; discriminate E|].
  repeat split.
Qed.

(** C3, amended: the mode stack gets shorter only by the commit of
    CSHARP_CONTEXT_CLOSE, with that kind admissible, the stack not empty
    and the next character that is not whitespace closing the tag on top;
    and a commit of CSHARP_CONTEXT_CLOSE always is such a pop.
    When that character is a closer that does not match the top tag, no
    CSHARP_CONTEXT_CLOSE is committed and the stack is unchanged; the
    mode-transition, comment and preprocessor families leave the closer
    alone, and when no raw-content kind is admissible the scan is handed to
    the sub-scanner with the cursor still before the closer, at most
    whitespace skipped. *)
Theorem context_close_pops_on_match_only {CS : CSharpScanner}
    (Hown : own_kinds CS) scanner lx valid_symbols :
  exists r,
    tree_sitter_razor_external_scanner_scan scanner lx valid_symbols = Some r
    /\ ((length (context_stack (scanner_after r))
         < length (context_stack scanner))%nat ->
        valid_symbols CSHARP_CONTEXT_CLOSE = true
        /\ context_stack scanner <> []
        /\ closes (last (context_stack scanner) 0) (next_non_whitespace lx)
        /\ returned r = true
        /\ result_symbol (lexer_after r) = CSHARP_CONTEXT_CLOSE
        /\ context_stack (scanner_after r) = removelast (context_stack scanner))
    /\ (returned r = true ->
        result_symbol (lexer_after r) = CSHARP_CONTEXT_CLOSE ->
        (length (context_stack (scanner_after r))
         < length (context_stack scanner))%nat)
    /\ (forall c,
           context_stack scanner <> [] ->
           next_non_whitespace lx = c ->
           c = ch "}" \/ c = ch ")" ->
           ~ closes (last (context_stack scanner) 0) c ->
           context_stack (scanner_after r) = context_stack scanner
           /\ ~ (returned r = true
                 /\ result_symbol (lexer_after r) = CSHARP_CONTEXT_CLOSE)
           /\ ((forall k, In k (map fst raw_kinds) -> valid_symbols k = false) ->
               exists lx',
                 (lx' = lx \/ skip_whitespace lx = Some lx')
                 /\ r = delegate valid_symbols scanner lx')).
Proof.
  destruct (scan_cases scanner lx valid_symbols) as [r [Hr Hcase]].
  exists r. split; [exact Hr|].
  assert (Hcommit : returned r = true ->
                    result_symbol (lexer_after r) = CSHARP_CONTEXT_CLOSE ->
                    (length (context_stack (scanner_after r))
                     < length (context_stack scanner))%nat).
  { intros Hret Hsym. destruct Hcase as [(lx' & _ & ->)|(_ & Hown_r)].
    - pose proof (delegate_kind _ _ _ Hown Hret) as Hk. rewrite Hsym in Hk.
      vm_compute in Hk. destruct Hk as [_ Hk]. discriminate Hk.
    - own_inversion Hown_r; try discriminate.
      match goal with
      | H : context_stack scanner <> [] |- _ =>
          rewrite (app_removelast_last 0 H) at 2
      end.
      rewrite length_app. cbn [length]. lia. }
  cut (((length (context_stack (scanner_after r))
         < length (context_stack scanner))%nat ->
        valid_symbols CSHARP_CONTEXT_CLOSE = true
        /\ context_stack scanner <> []
        /\ closes (last (context_stack scanner) 0) (next_non_whitespace lx)
        /\ returned r = true
        /\ result_symbol (lexer_after r) = CSHARP_CONTEXT_CLOSE
        /\ context_stack (scanner_after r) = removelast (context_stack scanner))
       /\ (forall c,
              context_stack scanner <> [] ->
              next_non_whitespace lx = c ->
              c = ch "}" \/ c = ch ")" ->
              ~ closes (last (context_stack scanner) 0) c ->
              context_stack (scanner_after r) = context_stack scanner
              /\ ~ (returned r = true
                    /\ result_symbol (lexer_after r) = CSHARP_CONTEXT_CLOSE)
              /\ ((forall k, In k (map fst raw_kinds) ->
                             valid_symbols k = false) ->
                  exists lx',
                    (lx' = lx \/ skip_whitespace lx = Some lx')
                    /\ r = delegate valid_symbols scanner lx'))).
  { intros [H1 H2]. split; [exact H1|]. split; [exact Hcommit | exact H2]. }
  clear Hcommit.
  destruct (list_eq_dec Z.eq_dec (context_stack scanner) []) as [Hempty|Hne].
  { split; [rewrite Hempty; cbn; lia | intros; contradiction]. }
  assert (Hdel : forall lx',
    (length (context_stack (scanner_after (delegate valid_symbols scanner lx')))
     < length (context_stack scanner))%nat -> False).
  { intros lx'. rewrite delegate_stack. lia. }
  assert (Hnotclose : forall lx',
    ~ (returned (delegate valid_symbols scanner lx') = true
       /\ result_symbol (lexer_after (delegate valid_symbols scanner lx'))
          = CSHARP_CONTEXT_CLOSE)).
  { intros lx' [Hret E].
    pose proof (delegate_kind _ _ _ Hown Hret) as Hk. rewrite E in Hk.
    vm_compute in Hk. destruct Hk as [_ Hk]. discriminate Hk. }
  (* what the cursor is on where the later families start *)
  assert (Hcursor : forall c lx5,
    next_non_whitespace lx = c -> c = ch "}" \/ c = ch ")" ->
    lx5 = lx \/ skip_whitespace lx = Some lx5 ->
    lookahead lx5 <> ch "/" /\ lookahead lx5 <> ch "#").
  { intros c lx5 Hc Hcc H5.
    assert (Hl : iswspace (lookahead lx5) = true \/ lookahead lx5 = c).
    { destruct H5 as [-> | H5].
      - rewrite <- Hc. apply lookahead_cases.
      - right. apply skip_whitespace_finds in H5. destruct H5 as (-> & _).
        exact Hc. }
    split; intros E; rewrite E in Hl;
      destruct Hl as [Hl|Hl]; try discriminate Hl;
      destruct Hcc as [-> | ->]; discriminate Hl. }
  destruct Hcase as [(lx' & Hfl & ->)|(Hfl & _)];
    destruct (scan_in_context valid_symbols scanner lx _ Hne Hfl)
      as [(r1 & E1 & Hat & Hlen & Hsym)
         |[(r2 & E2 & Hv & Hcl & Hret & Hsym & Hpop)
          |(lx5 & H5 & Hlater)]]; try discriminate.
  - (* reached the sub-scanner *)
    split; [intros Hlt; destruct (Hdel _ Hlt)|].
    intros c _ Hc Hcc Hmis. split; [apply delegate_stack|].
    split; [apply Hnotclose|]. intros Hraw.
    destruct (Hcursor c lx5 Hc Hcc H5) as [H1 H2].
    rewrite (later_families_pass valid_symbols scanner lx5 H1 H2 Hraw) in Hlater.
    injection Hlater as <-. eauto.
  - (* an opening family returned *)
    injection E1 as <-.
    split; [intros Hlt; lia|].
    intros c _ Hc Hcc Hmis. exfalso.
    destruct Hat as [Hat|Hat].
    + destruct (lookahead_cases lx) as [Hw|Hw]; rewrite Hat in Hw;
        [discriminate Hw|].
      rewrite Hc in Hw. destruct Hcc as [-> | ->]; discriminate Hw.
    + rewrite Hc in Hat. destruct Hcc as [-> | ->]; discriminate Hat.
  - (* the closing family popped *)
    injection E2 as <-.
    split; [intros _; repeat split; auto|].
    intros c _ Hc Hcc Hmis. rewrite Hc in Hcl. contradiction.
  - (* a later family returned *)
    destruct (later_families_return valid_symbols scanner lx5 r Hlater)
      as [Hsame Hsym].
    split; [intros Hlt; rewrite Hsame in Hlt; lia|].
    intros c _ Hc Hcc Hmis. split; [now rewrite Hsame|].
    split; [intros [Hret E]; now apply Hsym in Hret|].
    intros Hraw. exfalso.
    destruct (Hcursor c lx5 Hc Hcc H5) as [H1 H2].
    rewrite (later_families_pass valid_symbols scanner lx5 H1 H2 Hraw) in Hlater.
    discriminate Hlater.
Qed.

Lemma context_close_pops_on_match_only_witness :
  own_kinds Probe.scanner
  /\ exists r,
       tree_sitter_razor_external_scanner_scan
         (Probe.razor [CONTEXT_CSHARP_BRACE]) (start (str " )"))
         (only [CSHARP_CONTEXT_CLOSE]) = Some r
       /\ context_stack (scanner_after r) = [CONTEXT_CSHARP_BRACE]
       /\ ~ (returned r = true
             /\ result_symbol (lexer_after r) = CSHARP_CONTEXT_CLOSE).
Proof.
  split; [exact probe_own_kinds|].
  destruct (context_close_pops_on_match_only probe_own_kinds
              (Probe.razor [CONTEXT_CSHARP_BRACE]) (start (str " )"))
              (only [CSHARP_CONTEXT_CLOSE])) as (r & Hr & _ & _ & Hmis).
  exists r. split; [exact Hr|].
  destruct (Hmis (ch ")")) as (Hstack & Hkind & _).
  - discriminate.
  - reflexivity.
  - now right.
  - intros [[_ E]|[E _]]; vm_compute in E; discriminate E.
  - split; [exact Hstack | exact Hkind].
Defined.
